(** * AnyRouter session check-in: a shallow embedding of
      [src/checkin/checkin-session.js]

    The module under study is the class [AnyRouterSessionSignIn]: the
    token helpers [getTokens], [deleteToken], [createToken], [updateToken]
    and the orchestrator [signIn].  Every remote interaction of the class
    (a [fetch] issued inside [page.evaluate], a ledger RPC, the clock, the
    release of the browser context) is an explicit request of a small free
    monad; the answers come from an arbitrary stateful responder, so the
    theorems below hold for every behaviour of the remote console and of
    the ledger.

    Conventions of the embedding.
    - JSON objects are records; a field that may be missing is an
      [option] ([None] is JavaScript's [undefined]).  Truthiness tests
      ([x && ...], [x || d], [if (x)]) are written out with the functions
      of module [JS].
    - Quotas are integers in minor units ([Z]); the normalized amounts
      [q / 500000] are exact rationals in lowest terms ([Q]).
    - Strings are byte strings holding the UTF-8 encoding of the source
      literals; [startsWith] is [String.prefix].
    - Console logging has no counterpart: it neither reads nor writes any
      value the program uses.
    - The browser bootstrap at the top of [signIn] (launching the context,
      installing the cookie, visiting the login page, the random delay) is
      taken as done: the model starts at the sign-in request.  Following the
      interface of the session collaborator, [page.evaluate] always
      resolves, with the value the in-page function returns. *)

From Stdlib Require Import ZArith QArith String Ascii List Bool Lia DecimalString.
Import ListNotations.

Close Scope Q_scope.
Local Open Scope string_scope.
Local Open Scope list_scope.
Local Open Scope Z_scope.

Set Implicit Arguments.

(** ** JavaScript truthiness on the typed fields *)

Module JS.

(** [!!x] for a numeric field: [undefined], and [0] are falsy. *)
Definition truthyZ (x : option Z) : bool :=
  match x with
  | Some z => negb (z =? 0)
  | None => false
  end.

(** [!!x] for a string field: [undefined] and the empty string are falsy. *)
Definition truthyS (x : option string) : bool :=
  match x with
  | Some s => negb (String.eqb s "")
  | None => false
  end.

(** [!!x] for a boolean field. *)
Definition truthyB (x : option bool) : bool :=
  match x with
  | Some b => b
  | None => false
  end.

(** [x === true]. *)
Definition isTrue (x : option bool) : bool :=
  match x with
  | Some true => true
  | _ => false
  end.

(** [x || d] on numbers. *)
Definition orZ (x : option Z) (d : Z) : Z :=
  match x with
  | Some z => if z =? 0 then d else z
  | None => d
  end.

(** [x || d] on strings. *)
Definition orS (x : option string) (d : string) : string :=
  match x with
  | Some s => if String.eqb s "" then d else s
  | None => d
  end.

(** [x && x > 0]. *)
Definition positive (x : option Z) : bool :=
  match x with
  | Some z => negb (z =? 0) && (0 <? z)
  | None => false
  end.

(** [a === b] on two optional numbers ([undefined === undefined] holds). *)
Definition eqZ (a b : option Z) : bool :=
  match a, b with
  | Some x, Some y => x =? y
  | None, None => true
  | _, _ => false
  end.

(** [a === b] on two optional strings. *)
Definition eqS (a b : option string) : bool :=
  match a, b with
  | Some x, Some y => String.eqb x y
  | None, None => true
  | _, _ => false
  end.

(** The value of a string field when it is truthy. *)
Definition nonEmpty (x : option string) : option string :=
  match x with
  | Some s => if String.eqb s "" then None else Some s
  | None => None
  end.

(** The value of a numeric field when it is truthy. *)
Definition nonZero (x : option Z) : option Z :=
  match x with
  | Some z => if z =? 0 then None else Some z
  | None => None
  end.

(** [s.startsWith(p)]. *)
Definition startsWith (p s : string) : bool := String.prefix p s.

(** The text of an integer inside a template literal. *)
Definition showZ (z : Z) : string := NilZero.string_of_int (Z.to_int z).

End JS.

(** [q / 500000]: minor units to normalized currency units. *)
Definition toUnits (q : Z) : Q := Qred (q # 500000).

(** ** Data model *)

(** An entry of [accountInfo.tokens]: the caller's target state of a token. *)
Module TokenConfig.
Record t : Type := Build {
  id : option Z;
  key : option string;
  name : option string;
  is_deleted : option bool;
  is_sold : option bool;
  unlimited_quota : option bool;
  remain_quota : option Z;
  used_quota : option Z;
  supplement_quota : option Z
}.
End TokenConfig.

(** A token record as the console returns it.  [other] stands for the
    fields the program never reads but carries through the spread
    [{...matchedToken}] (creation time, expiry, group, ...). *)
Module RemoteToken.
Record t : Type := Build {
  id : Z;
  key : option string;
  name : option string;
  unlimited_quota : option bool;
  used_quota : option Z;
  remain_quota : option Z;
  other : list (string * string)
}.

(** [{...tok, remain_quota: q}], also the effect of the assignment
    [tok.remain_quota = q]. *)
Definition with_remain_quota (tok : t) (q : option Z) : t :=
  Build (id tok) (key tok) (name tok) (unlimited_quota tok)
        (used_quota tok) q (other tok).
End RemoteToken.

(** An entry of [userInfo.tokens], the filtered list of the result. *)
Module TokenInfo.
Record t : Type := Build {
  id : Z;
  key : option string;
  name : option string;
  unlimited_quota : option bool;
  used_quota : option Z;
  remain_quota : option Z;
  supplement_quota : Z
}.
End TokenInfo.

(** The optional [accountInfo] argument of [signIn]. *)
Module AccountInfo.
Record t : Type := Build {
  _id : option string;
  username : option string;
  tokens : option (list TokenConfig.t)
}.
End AccountInfo.

(** The payload of [GET /api/user/self]. *)
Module UserData.
Record t : Type := Build {
  username : option string;
  email : option string;
  quota : Z;
  used_quota : Z;
  aff_code : option string;
  aff_quota : option Z;
  status : option Z
}.
End UserData.

(** The object [userInfo] built from that payload. *)
Module UserInfo.
Record t : Type := Build {
  username : option string;
  email : option string;
  quota : Z;
  usedQuota : Z;
  affCode : option string;
  affQuota : Z;
  status : option Z;
  tokens : option (list TokenInfo.t)
}.

Definition with_reward (u : t) (quota' affQuota' : Z) : t :=
  Build (username u) (email u) quota' (usedQuota u) (affCode u) affQuota'
        (status u) (tokens u).

Definition with_tokens (u : t) (ts : list TokenInfo.t) : t :=
  Build (username u) (email u) (quota u) (usedQuota u) (affCode u)
        (affQuota u) (status u) (Some ts).
End UserInfo.

(** The argument of [createToken]. *)
Module CreateConfig.
Record t : Type := Build {
  unlimited_quota : option bool;
  remain_quota : option Z;
  name : option string
}.
End CreateConfig.

(** The body of [POST /api/token/]. *)
Module CreateBody.
Record t : Type := Build {
  name : string;
  expired_time : Z;
  model_limits_enabled : bool;
  model_limits : string;
  allow_ips : string;
  group : string;
  unlimited_quota : option bool;
  remain_quota : option Z
}.
End CreateBody.

(** A record of the bulk [addKeys] call. *)
Module KeyRecord.
Record t : Type := Build {
  key : string;
  key_type : string;
  is_sold : bool;
  quota : Q;
  source_name : string;
  account_id : option string
}.
End KeyRecord.

(** The argument of [updateKeyInfo]. *)
Module KeyUpdate.
Record inc : Type := Inc { quota : Q }.
(** [remain_quota] is [None] when the quotient is taken of a missing
    field ([undefined / 500000]). *)
Record upd : Type := Upd {
  remain_quota : option Q;
  used_quota : Q;
  quota_update_date : Z
}.
Record t : Type := Build {
  key : string;
  incData : option inc;
  updateData : option upd
}.
End KeyUpdate.

(** An element of [pendingSellTokenNames]. *)
Module Pending.
Record t : Type := Build {
  name : string;
  remain_quota : option Z
}.
End Pending.

(** ** Answers of the collaborators *)

(** What the in-page function of a token helper returns: [{error}] when
    [fetch] or [response.json()] throws, [{status, data}] otherwise. *)
Inductive fetched (B : Type) : Type :=
| FetchError (error : string)
| FetchResponse (status : Z) (data : B).
Arguments FetchError {B} error.
Arguments FetchResponse {B} status data.

(** A console response body [{success, message, data}]; [success] is the
    truthiness of the field. *)
Module Api.
Record body (D : Type) : Type := Body {
  success : bool;
  message : option string;
  data : option D
}.
Arguments Body {D} success message data.
Arguments success {D} b.
Arguments message {D} b.
Arguments data {D} b.
End Api.

(** The body of the sign-in response. *)
Module SignInBody.
Record t : Type := Build {
  ret : option Z;
  code : option Z;
  success : bool;
  msg : option string;
  message : option string
}.
End SignInBody.

(** The result [{success, error}] of a ledger call. *)
Module Ledger.
Record result : Type := Result {
  success : bool;
  error : option string
}.
End Ledger.

(** ** Requests, responses and programs *)

Inductive request : Type :=
| PostSignIn                                   (* POST /api/user/sign_in *)
| GetUserSelf                                  (* GET /api/user/self *)
| PostAffTransfer (quota : Z)                  (* POST /api/user/aff_transfer *)
| GetTokens                                    (* GET /api/token/?p=0&size=100 *)
| PostToken (requestBody : CreateBody.t)       (* POST /api/token/ *)
| DeleteToken (tokenId : Z)                    (* DELETE /api/token/{id} *)
| PutToken (tokenData : RemoteToken.t)         (* PUT /api/token/ *)
| AddKeys (keys : list KeyRecord.t)            (* ledger addKeys *)
| UpdateKeyInfo (info : KeyUpdate.t)           (* ledger updateKeyInfo *)
| DateNow                                      (* Date.now() *)
| ContextClose.                                (* context.close() *)

Definition response (r : request) : Type :=
  match r with
  | PostSignIn => fetched SignInBody.t
  | GetUserSelf => option (Api.body UserData.t)
  | PostAffTransfer _ => fetched (Api.body unit)
  | GetTokens => fetched (Api.body (list RemoteToken.t))
  | PostToken _ => fetched (Api.body unit)
  | DeleteToken _ => fetched (Api.body unit)
  | PutToken _ => fetched (Api.body RemoteToken.t)
  | AddKeys _ => Ledger.result
  | UpdateKeyInfo _ => Ledger.result
  | DateNow => Z
  | ContextClose => unit
  end.

(** A program is a tree of requests: the asynchronous code, one awaited
    call after the other. *)
Inductive prog (A : Type) : Type :=
| Ret (a : A)
| Call (r : request) (k : response r -> prog A).
Arguments Ret {A} a.
Arguments Call {A} r k.

Fixpoint bind {A B : Type} (p : prog A) (f : A -> prog B) : prog B :=
  match p with
  | Ret a => f a
  | Call r k => Call r (fun x => bind (k x) f)
  end.

Definition call (r : request) : prog (response r) := Call r (fun x => Ret x).

Declare Scope prog_scope.
Delimit Scope prog_scope with prog.
Notation "x <- c1 ;; c2" := (bind c1 (fun x => c2))
  (at level 61, c1 at next level, right associativity) : prog_scope.
Notation "c1 ;; c2" := (bind c1 (fun _ => c2))
  (at level 61, right associativity) : prog_scope.
Local Open Scope prog_scope.

(** An event of a run: a request with the answer it received. *)
Definition event : Type := { r : request & response r }.
Definition trace : Type := list event.

Definition requests (tr : trace) : list request := map (@projT1 _ _) tr.

(** Running a program against a responder: the state [W] of the outside
    world (console, ledger, clock) answers each request and moves on. *)
Section Run.
Variable W : Type.
Variable respond : W -> forall r : request, response r * W.

Fixpoint run {A : Type} (p : prog A) (w : W) : A * trace * W :=
  match p with
  | Ret a => (a, [], w)
  | Call r k =>
      let (x, w1) := respond w r in
      let '(a, tr, w2) := run (k x) w1 in
      (a, existT _ r x :: tr, w2)
  end.

Definition result_of {A : Type} (p : prog A) (w : W) : A :=
  fst (fst (run p w)).
Definition trace_of {A : Type} (p : prog A) (w : W) : trace :=
  snd (fst (run p w)).
Definition world_of {A : Type} (p : prog A) (w : W) : W :=
  snd (run p w).
End Run.

(** ** The token helpers *)

(** The test shared by the helpers: [result.error] is not set,
    [result.status === 200] and [result.data.success] is truthy.  An
    [{error}] whose message is empty passes the first test and then fails
    the second (its [status] is [undefined]) or is caught by the helper's
    own [catch]: the helper returns its failure value either way. *)
Definition accepted {D : Type} (result : fetched (Api.body D)) : bool :=
  match result with
  | FetchError _ => false
  | FetchResponse status data => (status =? 200) && Api.success data
  end.

(** What [getTokens] returns for an answer (lines 142-153):
    [result.data.data || []] when accepted, [[]] otherwise. *)
Definition tokenList (result : fetched (Api.body (list RemoteToken.t)))
  : list RemoteToken.t :=
  match result with
  | FetchError _ => []
  | FetchResponse status data =>
      if (status =? 200) && Api.success data
      then match Api.data data with
           | Some tokens => tokens
           | None => []
           end
      else []
  end.

(** [getTokens] (lines 113-158). *)
Definition getTokens : prog (list RemoteToken.t) :=
  result <- call GetTokens ;;
  Ret (tokenList result).

(** [deleteToken] (lines 167-212). *)
Definition deleteToken (tokenId : Z) : prog bool :=
  result <- call (DeleteToken tokenId) ;;
  Ret (accepted result).

(** The request body [createToken] builds (lines 226-241). *)
Definition createTokenBody (tokenConfig : CreateConfig.t) : CreateBody.t :=
  let requestBody :=
    CreateBody.Build (JS.orS (CreateConfig.name tokenConfig) "dw")
                     (-1) false "" "" "default" in
  if JS.truthyB (CreateConfig.unlimited_quota tokenConfig)
  then requestBody (Some true) None
  else requestBody None
         (Some (JS.orZ (CreateConfig.remain_quota tokenConfig) 500000)).

(** [createToken] (lines 221-287). *)
Definition createToken (tokenConfig : CreateConfig.t) : prog bool :=
  result <- call (PostToken (createTokenBody tokenConfig)) ;;
  Ret (accepted result).

(** What [updateToken] returns for an answer (lines 327-338): the updated
    record [result.data.data], or [None] for [null] and for an accepted
    body without [data]. *)
Definition updatedToken (result : fetched (Api.body RemoteToken.t))
  : option RemoteToken.t :=
  match result with
  | FetchError _ => None
  | FetchResponse status data =>
      if (status =? 200) && Api.success data then Api.data data else None
  end.

(** [updateToken] (lines 296-343). *)
Definition updateToken (tokenData : RemoteToken.t) : prog (option RemoteToken.t) :=
  result <- call (PutToken tokenData) ;;
  Ret (updatedToken result).

(** ** The passes of [signIn] *)

(** The sale-name prefix of the source. *)
Definition sellPrefix : string := "出售_".

(** [accountInfo && accountInfo.tokens && Array.isArray(accountInfo.tokens)]:
    the configured list when the test passes. *)
Definition configuredTokens (accountInfo : option AccountInfo.t)
  : option (list TokenConfig.t) :=
  match accountInfo with
  | Some a => AccountInfo.tokens a
  | None => None
  end.

(** One iteration of the management loop (lines 605-628): deletion of a
    marked token, or creation of a token without identifier. *)
Definition manageToken (tokenConfig : TokenConfig.t) (pendingSellTokenNames : list Pending.t)
  : prog (list Pending.t) :=
  match JS.nonZero (TokenConfig.id tokenConfig) with
  | Some tokenId =>
      if JS.truthyB (TokenConfig.is_deleted tokenConfig)
      then deleteToken tokenId ;; Ret pendingSellTokenNames
      else Ret pendingSellTokenNames
  | None =>
      createSuccess <-
        createToken
          (CreateConfig.Build
             (Some (JS.truthyB (TokenConfig.unlimited_quota tokenConfig)))
             (TokenConfig.remain_quota tokenConfig)
             (TokenConfig.name tokenConfig)) ;;
      match JS.nonEmpty (TokenConfig.name tokenConfig) with
      | Some name =>
          if createSuccess && JS.startsWith sellPrefix name
          then Ret (pendingSellTokenNames
                      ++ [Pending.Build name (TokenConfig.remain_quota tokenConfig)])
          else Ret pendingSellTokenNames
      | None => Ret pendingSellTokenNames
      end
  end.

Fixpoint manageTokens (configs : list TokenConfig.t) (pendingSellTokenNames : list Pending.t)
  : prog (list Pending.t) :=
  match configs with
  | [] => Ret pendingSellTokenNames
  | tokenConfig :: rest =>
      pending <- manageToken tokenConfig pendingSellTokenNames ;;
      manageTokens rest pending
  end.

(** [tokens.find(...)] followed by an assignment to the found object: the
    first element satisfying [p] is replaced, the array keeps its other
    elements. *)
Fixpoint assignFirst (p : RemoteToken.t -> bool) (f : RemoteToken.t -> RemoteToken.t)
    (tokens : list RemoteToken.t) : list RemoteToken.t :=
  match tokens with
  | [] => []
  | t :: rest => if p t then f t :: rest else t :: assignFirst p f rest
  end.

(** [(t) => t.id === configToken.id]. *)
Definition sameId (configToken : TokenConfig.t) (t : RemoteToken.t) : bool :=
  JS.eqZ (Some (RemoteToken.id t)) (TokenConfig.id configToken).

(** The ledger mirror of a successful supplement (lines 679-701). *)
Definition mirrorSupplement (configToken : TokenConfig.t) (updateResult : RemoteToken.t)
  : prog unit :=
  match JS.nonEmpty (TokenConfig.key configToken) with
  | Some key =>
      now <- call DateNow ;;
      call (UpdateKeyInfo
              (KeyUpdate.Build key
                 (Some (KeyUpdate.Inc
                          (toUnits (JS.orZ (TokenConfig.supplement_quota configToken) 0))))
                 (Some (KeyUpdate.Upd
                          (option_map toUnits (RemoteToken.remain_quota updateResult))
                          (toUnits (JS.orZ (RemoteToken.used_quota updateResult) 0))
                          now)))) ;;
      Ret tt
  | None => Ret tt
  end.

(** One iteration of the supplement loop (lines 654-706).  The entries it
    runs on have a positive [supplement_quota], so [orZ _ 0] is that value. *)
Definition supplementToken (configToken : TokenConfig.t) (tokens : list RemoteToken.t)
  : prog (list RemoteToken.t) :=
  match find (sameId configToken) tokens with
  | Some matchedToken =>
      let newRemainQuota :=
        JS.orZ (RemoteToken.remain_quota matchedToken) 0
        + JS.orZ (TokenConfig.supplement_quota configToken) 0 in
      let updatedTokenData :=
        RemoteToken.with_remain_quota matchedToken (Some newRemainQuota) in
      updateResult <- updateToken updatedTokenData ;;
      match updateResult with
      | Some updateResult =>
          let tokens' :=
            assignFirst (sameId configToken)
              (fun t => RemoteToken.with_remain_quota t
                          (RemoteToken.remain_quota updateResult))
              tokens in
          mirrorSupplement configToken updateResult ;;
          Ret tokens'
      | None => Ret tokens
      end
  | None => Ret tokens
  end.

Fixpoint supplementTokens (tokensToSupplement : list TokenConfig.t)
    (tokens : list RemoteToken.t) : prog (list RemoteToken.t) :=
  match tokensToSupplement with
  | [] => Ret tokens
  | configToken :: rest =>
      tokens' <- supplementToken configToken tokens ;;
      supplementTokens rest tokens'
  end.

(** [(t) => t.supplement_quota && t.supplement_quota > 0]. *)
Definition needsSupplement (t : TokenConfig.t) : bool :=
  JS.positive (TokenConfig.supplement_quota t).

(** The supplement pass (lines 646-708), run on a non-empty token list. *)
Definition supplementPass (accountInfo : option AccountInfo.t)
    (tokens : list RemoteToken.t) : prog (list RemoteToken.t) :=
  match configuredTokens accountInfo with
  | Some configs => supplementTokens (filter needsSupplement configs) tokens
  | None => Ret tokens
  end.

(** [accountInfo.username || ''].  The expression is evaluated only for a
    pending sale, which a missing [accountInfo] never records. *)
Definition accountUsername (accountInfo : option AccountInfo.t) : string :=
  match accountInfo with
  | Some a => JS.orS (AccountInfo.username a) ""
  | None => ""
  end.

Definition accountId (accountInfo : option AccountInfo.t) : option string :=
  match accountInfo with
  | Some a => AccountInfo._id a
  | None => None
  end.

(** The loop filling [keysToUpload] (lines 718-732). *)
Fixpoint keysToUpload (accountInfo : option AccountInfo.t)
    (tokens : list RemoteToken.t) (pendingSellTokenNames : list Pending.t)
  : list KeyRecord.t :=
  match pendingSellTokenNames with
  | [] => []
  | pending :: rest =>
      let others := keysToUpload accountInfo tokens rest in
      match find (fun t => JS.eqS (RemoteToken.name t) (Some (Pending.name pending)))
                 tokens with
      | Some matchedToken =>
          match JS.nonEmpty (RemoteToken.key matchedToken) with
          | Some key =>
              let quota :=
                match JS.nonZero (Pending.remain_quota pending) with
                | Some q => toUnits q
                | None => 0%Q
                end in
              KeyRecord.Build key "anyrouter" false quota
                (accountUsername accountInfo ++ "&" ++ Pending.name pending)%string
                (accountId accountInfo)
              :: others
          | None => others
          end
      | None => others
      end
  end.

(** The sale-upload resolution (lines 712-742). *)
Definition uploadPending (accountInfo : option AccountInfo.t)
    (tokens : list RemoteToken.t) (pendingSellTokenNames : list Pending.t)
  : prog unit :=
  match pendingSellTokenNames with
  | [] => Ret tt
  | _ :: _ =>
      match keysToUpload accountInfo tokens pendingSellTokenNames with
      | [] => Ret tt
      | keys => call (AddKeys keys) ;; Ret tt
      end
  end.

(** The filter of the drift sync (lines 747-749):
    [((t.name && t.name.startsWith(prefix)) || t.is_sold === true) && t.key]. *)
Definition isSellConfig (t : TokenConfig.t) : bool :=
  ((match JS.nonEmpty (TokenConfig.name t) with
    | Some name => JS.startsWith sellPrefix name
    | None => false
    end)
   || JS.isTrue (TokenConfig.is_sold t))
  && JS.truthyS (TokenConfig.key t).

(** [(t) => t.key === configToken.key || t.id === configToken.id]. *)
Definition sameKeyOrId (configToken : TokenConfig.t) (t : RemoteToken.t) : bool :=
  JS.eqS (RemoteToken.key t) (TokenConfig.key configToken)
  || JS.eqZ (Some (RemoteToken.id t)) (TokenConfig.id configToken).

(** One iteration of the drift sync (lines 751-793).  The entries it runs
    on passed [isSellConfig], so their key is a non-empty string. *)
Definition syncSellToken (tokens : list RemoteToken.t) (configToken : TokenConfig.t)
  : prog unit :=
  match find (sameKeyOrId configToken) tokens with
  | Some currentToken =>
      let oldUsedQuota := JS.orZ (TokenConfig.used_quota configToken) 0 in
      let newUsedQuota := JS.orZ (RemoteToken.used_quota currentToken) 0 in
      let isSold := JS.isTrue (TokenConfig.is_sold configToken) in
      if negb (newUsedQuota =? oldUsedQuota) || isSold
      then
        now <- call DateNow ;;
        call (UpdateKeyInfo
                (KeyUpdate.Build (JS.orS (TokenConfig.key configToken) "")
                   None
                   (Some (KeyUpdate.Upd
                            (Some (toUnits (JS.orZ (RemoteToken.remain_quota currentToken) 0)))
                            (toUnits newUsedQuota)
                            now)))) ;;
        Ret tt
      else Ret tt
  | None => Ret tt
  end.

Fixpoint syncSellTokens (tokens : list RemoteToken.t)
    (sellTokenConfigs : list TokenConfig.t) : prog unit :=
  match sellTokenConfigs with
  | [] => Ret tt
  | configToken :: rest =>
      syncSellToken tokens configToken ;;
      syncSellTokens tokens rest
  end.

(** The drift sync pass (lines 745-794). *)
Definition driftSync (accountInfo : option AccountInfo.t)
    (tokens : list RemoteToken.t) : prog unit :=
  match configuredTokens accountInfo with
  | Some configs => syncSellTokens tokens (filter isSellConfig configs)
  | None => Ret tt
  end.

(** The filtered token list of the result (lines 798-806). *)
Definition tokenInfo (token : RemoteToken.t) : TokenInfo.t :=
  TokenInfo.Build (RemoteToken.id token) (RemoteToken.key token)
    (RemoteToken.name token) (RemoteToken.unlimited_quota token)
    (RemoteToken.used_quota token) (RemoteToken.remain_quota token) 0.

Definition attachTokens (userInfo : UserInfo.t) (tokens : list RemoteToken.t)
  : UserInfo.t :=
  match tokens with
  | [] => userInfo
  | _ :: _ => UserInfo.with_tokens userInfo (map tokenInfo tokens)
  end.

(** The reward transfer (lines 550-594).  The outcome of the transfer is
    only logged; the snapshot is adjusted whatever it is. *)
Definition transferReward (userInfo : UserInfo.t) : prog UserInfo.t :=
  if negb (UserInfo.affQuota userInfo =? 0) && (0 <? UserInfo.affQuota userInfo)
  then
    call (PostAffTransfer (UserInfo.affQuota userInfo)) ;;
    Ret (UserInfo.with_reward userInfo
           (UserInfo.quota userInfo + UserInfo.affQuota userInfo) 0)
  else Ret userInfo.

(** Lines 634-709: the token list, then the bootstrap token or the
    supplement pass. *)
Definition fetchAndSupplement (accountInfo : option AccountInfo.t)
  : prog (list RemoteToken.t) :=
  tokens <- getTokens ;;
  match tokens with
  | [] =>
      created <- createToken (CreateConfig.Build (Some true) None None) ;;
      if created then getTokens else Ret tokens
  | _ :: _ => supplementPass accountInfo tokens
  end.

(** The management pass (lines 597-631): deletions and creations, and the
    sale tokens created. *)
Definition managePass (accountInfo : option AccountInfo.t) : prog (list Pending.t) :=
  match configuredTokens accountInfo with
  | Some configs => manageTokens configs []
  | None => Ret []
  end.

(** The body of the bootstrap request: [createToken] on
    [{unlimited_quota: true}]. *)
Definition bootstrapBody : CreateBody.t :=
  CreateBody.Build "dw" (-1) false "" "" "default" (Some true) None.

(** Lines 596-808: everything [signIn] does with tokens for a snapshot
    that is not banned. *)
Definition reconcile (accountInfo : option AccountInfo.t) (userInfo : UserInfo.t)
  : prog UserInfo.t :=
  pendingSellTokenNames <- managePass accountInfo ;;
  tokens <- fetchAndSupplement accountInfo ;;
  uploadPending accountInfo tokens pendingSellTokenNames ;;
  driftSync accountInfo tokens ;;
  Ret (attachTokens userInfo tokens).

(** ** The orchestrator *)

(** The value [signIn] resolves to. *)
Inductive SignInResult : Type :=
| Success (userInfo : option UserInfo.t)       (* { success: true, userInfo } *)
| Failure (error : string).                    (* { success: false, error } *)

(** [data.ret === 1 || data.code === 0 || data.success] (line 498). *)
Definition signInAccepted (data : SignInBody.t) : bool :=
  JS.eqZ (SignInBody.ret data) (Some 1)
  || JS.eqZ (SignInBody.code data) (Some 0)
  || SignInBody.success data.

(** The object the in-page function of lines 504-531 returns. *)
Definition userInfoOf (fetchedSelf : option (Api.body UserData.t)) : option UserInfo.t :=
  match fetchedSelf with
  | Some data =>
      if Api.success data
      then match Api.data data with
           | Some d =>
               Some (UserInfo.Build (UserData.username d) (UserData.email d)
                       (UserData.quota d) (UserData.used_quota d)
                       (UserData.aff_code d) (JS.orZ (UserData.aff_quota d) 0)
                       (UserData.status d) None)
           | None => None
           end
      else None
  | None => None
  end.

(** Lines 543-812: what [signIn] does with a snapshot that passed the
    banned check. *)
Definition afterSnapshot (accountInfo : option AccountInfo.t) (userInfo : UserInfo.t)
  : prog SignInResult :=
  userInfo1 <- transferReward userInfo ;;
  userInfo2 <- reconcile accountInfo userInfo1 ;;
  call ContextClose ;;
  Ret (Success (Some userInfo2)).

(** [signIn] from the sign-in request on (lines 457-825). *)
Definition signIn (accountInfo : option AccountInfo.t) : prog SignInResult :=
  result <- call PostSignIn ;;
  match result with
  | FetchError error =>
      if negb (String.eqb error "")
      then call ContextClose ;; Ret (Failure error)
      else call ContextClose ;; Ret (Failure "HTTP undefined")
  | FetchResponse status data =>
      if status =? 200
      then
        if signInAccepted data
        then
          fetchedSelf <- call GetUserSelf ;;
          match userInfoOf fetchedSelf with
          | Some userInfo =>
              if JS.eqZ (UserInfo.status userInfo) (Some 2)
              then call ContextClose ;; Ret (Success (Some userInfo))
              else afterSnapshot accountInfo userInfo
          | None => call ContextClose ;; Ret (Success None)
          end
        else
          let errorMsg :=
            JS.orS (SignInBody.msg data)
              (JS.orS (SignInBody.message data) "未知错误") in
          call ContextClose ;; Ret (Failure errorMsg)
      else
        call ContextClose ;; Ret (Failure ("HTTP " ++ JS.showZ status)%string)
  end.

(** ** Observations on a trace *)

(** The quotas of the reward transfers requested. *)
Definition transfers (rs : list request) : list Z :=
  flat_map (fun r => match r with PostAffTransfer q => [q] | _ => [] end) rs.

(** The records sent for update. *)
Definition tokenUpdates (rs : list request) : list RemoteToken.t :=
  flat_map (fun r => match r with PutToken d => [d] | _ => [] end) rs.

(** The arguments of the [updateKeyInfo] calls. *)
Definition keyUpdates (rs : list request) : list KeyUpdate.t :=
  flat_map (fun r => match r with UpdateKeyInfo i => [i] | _ => [] end) rs.

(** A list-tokens request whose answer is not an accepted one. *)
Definition listFailure (e : event) : bool :=
  match e with
  | existT _ r x =>
      match r return response r -> bool with
      | GetTokens => fun result => negb (accepted result)
      | _ => fun _ => false
      end x
  end.

(** A request that neither lists nor updates tokens. *)
Definition neutral (r : request) : Prop :=
  r <> GetTokens /\ forall d, r <> PutToken d.

(** On a trace: a failed listing comes with the
    bootstrap request and without any token update. *)
Definition failureBootstraps (tr : trace) : Prop :=
  existsb listFailure tr = true ->
  In (PostToken bootstrapBody) (requests tr) /\ tokenUpdates (requests tr) = [].

(** The record lists of the [addKeys] calls. *)
Definition uploads (rs : list request) : list (list KeyRecord.t) :=
  flat_map (fun r => match r with AddKeys keys => [keys] | _ => [] end) rs.

(** The entries the supplement pass runs on (lines 647-649). *)
Definition tokensToSupplement (accountInfo : option AccountInfo.t)
  : list TokenConfig.t :=
  match configuredTokens accountInfo with
  | Some configs => filter needsSupplement configs
  | None => []
  end.

(** The entries the drift sync runs on (lines 747-749). *)
Definition sellTokenConfigs (accountInfo : option AccountInfo.t)
  : list TokenConfig.t :=
  match configuredTokens accountInfo with
  | Some configs => filter isSellConfig configs
  | None => []
  end.

(** The condition of the drift sync, in the words of the specification:
    the entry is matched to a current token and either its recorded used
    quota differs from the token's or it is marked sold. *)
Definition driftedOrSold (tokens : list RemoteToken.t) (configToken : TokenConfig.t)
  : bool :=
  match find (sameKeyOrId configToken) tokens with
  | Some currentToken =>
      negb (JS.orZ (RemoteToken.used_quota currentToken) 0
            =? JS.orZ (TokenConfig.used_quota configToken) 0)
      || JS.isTrue (TokenConfig.is_sold configToken)
  | None => false
  end.

(** The update an entry asks for, on a token list. *)
Definition supplementOf (tokens : list RemoteToken.t) (configToken : TokenConfig.t)
  : list RemoteToken.t :=
  match find (sameId configToken) tokens with
  | Some matchedToken =>
      [RemoteToken.with_remain_quota matchedToken
         (Some (JS.orZ (RemoteToken.remain_quota matchedToken) 0
                + JS.orZ (TokenConfig.supplement_quota configToken) 0))]
  | None => []
  end.

(** The final token list of a result carries no supplement. *)
Definition supplementsCleared (result : SignInResult) : Prop :=
  match result with
  | Success (Some userInfo) =>
      match UserInfo.tokens userInfo with
      | Some tokens => Forall (fun t => TokenInfo.supplement_quota t = 0) tokens
      | None => True
      end
  | _ => True
  end.

(** The identifiers an entry list names. *)
Definition configIds (configs : list TokenConfig.t) : list Z :=
  flat_map (fun c => match TokenConfig.id c with Some i => [i] | None => [] end)
           configs.

(** [only P p]: every request the program [p] can issue satisfies [P]. *)
Inductive only (P : request -> Prop) {A : Type} : prog A -> Prop :=
| only_Ret : forall a, only P (Ret a)
| only_Call : forall r k, P r -> (forall x, only P (k x)) -> only P (Call r k).

(** ** Scenarios

    Concrete accounts, tokens and responders on which the theorems are
    exercised. *)

Module Scenario.

(** A console and ledger that accept everything: a created or deleted
    token is acknowledged, an update is confirmed with the record that
    was sent, the token list is [listed], the clock reads [1700000000000]
    and sign-in answers [{success: true}] for the user [self]. *)
Definition agreeable (self : option (Api.body UserData.t))
    (listed : list RemoteToken.t) (w : unit) (r : request) : response r * unit :=
  match r return response r * unit with
  | PostSignIn =>
      (FetchResponse 200 (SignInBody.Build None None true None None), w)
  | GetUserSelf => (self, w)
  | PostAffTransfer _ => (FetchResponse 200 (Api.Body true None None), w)
  | GetTokens => (FetchResponse 200 (Api.Body true None (Some listed)), w)
  | PostToken _ => (FetchResponse 200 (Api.Body true None None), w)
  | DeleteToken _ => (FetchResponse 200 (Api.Body true None None), w)
  | PutToken d => (FetchResponse 200 (Api.Body true None (Some d)), w)
  | AddKeys _ => (Ledger.Result true None, w)
  | UpdateKeyInfo _ => (Ledger.Result true None, w)
  | DateNow => (1700000000000, w)
  | ContextClose => (tt, w)
  end.

(** A console that rejects every request, with HTTP status [status] and
    the message [msg]; the ledger refuses too. *)
Definition refusing (status : Z) (msg : string) (w : unit) (r : request)
  : response r * unit :=
  match r return response r * unit with
  | PostSignIn =>
      (FetchResponse status (SignInBody.Build None None false None (Some msg)), w)
  | GetUserSelf => (None, w)
  | PostAffTransfer _ => (FetchResponse status (Api.Body false (Some msg) None), w)
  | GetTokens => (FetchResponse status (Api.Body false (Some msg) None), w)
  | PostToken _ => (FetchResponse status (Api.Body false (Some msg) None), w)
  | DeleteToken _ => (FetchResponse status (Api.Body false (Some msg) None), w)
  | PutToken d => (FetchResponse status (Api.Body false (Some msg) None), w)
  | AddKeys _ => (Ledger.Result false (Some msg), w)
  | UpdateKeyInfo _ => (Ledger.Result false (Some msg), w)
  | DateNow => (1700000000000, w)
  | ContextClose => (tt, w)
  end.

(** User payloads. *)
Definition alice (aff_quota status : option Z) : option (Api.body UserData.t) :=
  Some (Api.Body true None
          (Some (UserData.Build (Some "alice") (Some "alice@example.org")
                   1000000 250000 (Some "c15A") aff_quota status))).

(** A console that serves reads and refuses writes: the token list is
    [listed], creations, deletions and updates are answered with
    [{success: false}]. *)
Definition readOnly (listed : list RemoteToken.t) (w : unit) (r : request)
  : response r * unit :=
  match r return response r * unit with
  | PostToken _ => (FetchResponse 200 (Api.Body false (Some "quota exceeded") None), w)
  | DeleteToken _ => (FetchResponse 200 (Api.Body false (Some "quota exceeded") None), w)
  | PutToken _ => (FetchResponse 200 (Api.Body false (Some "quota exceeded") None), w)
  | r' => agreeable None listed w r'
  end.

(** A console whose token listing fails in transport; everything else is
    accepted. *)
Definition listingDown (self : option (Api.body UserData.t)) (w : unit)
    (r : request) : response r * unit :=
  match r return response r * unit with
  | GetTokens => (FetchError "Failed to fetch", w)
  | r' => agreeable self [] w r'
  end.

(** The remote token [{id: 7, remain_quota: 100000}]. *)
Definition token7 : RemoteToken.t :=
  RemoteToken.Build 7 None None None None (Some 100000) [].

(** The desired entry [{id: 7, supplement_quota: 50000}], with the key
    material [key] when given. *)
Definition supplement7 (key : option string) : TokenConfig.t :=
  TokenConfig.Build (Some 7) key None None None None None None (Some 50000).

Definition account (configs : list TokenConfig.t) : option AccountInfo.t :=
  Some (AccountInfo.Build (Some "acc-1") (Some "alice") (Some configs)).

(** A desired entry marked sold, with key material, that no remote token
    matches. *)
Definition soldElsewhere : TokenConfig.t :=
  TokenConfig.Build (Some 9) (Some "sk-9") (Some "spare") None (Some true)
    None None (Some 1200) None.

(** A sale entry for the remote token 8, last seen with a used quota of
    [used]. *)
Definition sale8 (used : option Z) : TokenConfig.t :=
  TokenConfig.Build (Some 8) (Some "sk-8") (Some "出售_a") None None
    None (Some 1000000) used None.

(** The remote token 8, named [name], with a used quota of 300. *)
Definition token8 (name : string) : RemoteToken.t :=
  RemoteToken.Build 8 (Some "sk-8") (Some name) (Some false) (Some 300)
    (Some 999700) [].

(** A desired entry without identifier: a token of 1000000 to create under
    the name [name]. *)
Definition toCreate (name : string) : TokenConfig.t :=
  TokenConfig.Build None None (Some name) None None None (Some 1000000) None None.

(** The snapshot [signIn] builds from [alice aff_quota status]. *)
Definition aliceInfo (affQuota : Z) (status : option Z) : UserInfo.t :=
  UserInfo.Build (Some "alice") (Some "alice@example.org")
    1000000 250000 (Some "c15A") affQuota status None.

End Scenario.

(** ** The WAF cookie helper and the HTTP snapshot reader

    [getWafCookies] (lines 36-105) and [getUserInfo] (lines 351-397) talk
    to collaborators of their own: a browser context and an HTTP client.
    Their steps are the requests of a second program type; a step that can
    reject answers with an [attempt].  [context.close()] and the timer of
    [randomDelay] are taken to resolve. *)

Module Waf.

(** The fields of a browser cookie the code reads. *)
Record Cookie : Type := MkCookie {
  name : string;
  value : string
}.

(** A JavaScript object with string properties, in insertion order. *)
Definition object : Type := list (string * string).

(** [o[key] = value]: an existing property keeps its place. *)
Fixpoint setProp (key value : string) (o : object) : object :=
  match o with
  | [] => [(key, value)]
  | (k, v) :: rest =>
      if String.eqb key k then (k, value) :: rest
      else (k, v) :: setProp key value rest
  end.

(** [o[key]]. *)
Fixpoint getProp (key : string) (o : object) : option string :=
  match o with
  | [] => None
  | (k, v) :: rest => if String.eqb key k then Some v else getProp key rest
  end.

(** The outcome of an awaited step that may reject. *)
Inductive attempt (A : Type) : Type :=
| Thrown (message : string)
| Done (a : A).
Arguments Thrown {A} message.
Arguments Done {A} a.

Inductive request : Type :=
| Launch                          (* chromium.launchPersistentContext *)
| NewPage                         (* context.newPage() *)
| GotoLogin                       (* page.goto(`${baseUrl}/login`) *)
| WaitComplete                    (* page.waitForFunction(readyState complete) *)
| RandomDelay (min max : Z)       (* this.randomDelay(min, max) *)
| ContextCookies                  (* context.cookies() *)
| Close                           (* context.close() *)
| GetSelf (cookie : string).      (* axios GET /api/user/self, Cookie header *)

Definition response (r : request) : Type :=
  match r with
  | Launch => attempt unit
  | NewPage => attempt unit
  | GotoLogin => attempt unit
  | WaitComplete => attempt unit
  | RandomDelay _ _ => unit
  | ContextCookies => attempt (list Cookie)
  | Close => unit
  | GetSelf _ => attempt (Z * Api.body UserData.t)
  end.

Inductive prog (A : Type) : Type :=
| Ret (a : A)
| Call (r : request) (k : response r -> prog A).
Arguments Ret {A} a.
Arguments Call {A} r k.

Fixpoint bind {A B : Type} (p : prog A) (f : A -> prog B) : prog B :=
  match p with
  | Ret a => f a
  | Call r k => Call r (fun x => bind (k x) f)
  end.

Definition call (r : request) : prog (response r) := Call r (fun x => Ret x).

(** The names kept from the browser's cookies (line 79) and the names
    required (line 87). *)
Definition wafNames : list string := ["acw_tc"; "cdn_sec_tc"; "acw_sc__v2"].
Definition requiredCookies : list string := ["acw_tc"; "cdn_sec_tc"; "acw_sc__v2"].

(** [names.includes(s)]. *)
Definition includes (names : list string) (s : string) : bool :=
  existsb (String.eqb s) names.

(** The loop of lines 78-82. *)
Fixpoint collect (cookies : list Cookie) (wafCookies : object) : object :=
  match cookies with
  | [] => wafCookies
  | cookie :: rest =>
      collect rest
        (if includes wafNames (name cookie)
         then setProp (name cookie) (value cookie) wafCookies
         else wafCookies)
  end.

(** [requiredCookies.filter((c) => !wafCookies[c])] (line 88). *)
Definition missingCookies (wafCookies : object) : list string :=
  filter (fun c => negb (JS.truthyS (getProp c wafCookies))) requiredCookies.

(** [getWafCookies] (lines 36-105).  A rejection before the context exists
    leaves nothing to close; any later one closes it in the [catch]. *)
Definition getWafCookies : prog (option object) :=
  bind (call Launch) (fun context =>
  match context with
  | Thrown _ => Ret None
  | Done _ =>
      bind (call NewPage) (fun page =>
      match page with
      | Thrown _ => bind (call Close) (fun _ => Ret None)
      | Done _ =>
          bind (call GotoLogin) (fun visited =>
          match visited with
          | Thrown _ => bind (call Close) (fun _ => Ret None)
          | Done _ =>
              bind (call WaitComplete) (fun ready =>
              bind (match ready with
                    | Thrown _ => call (RandomDelay 3000 3000)
                    | Done _ => Ret tt
                    end) (fun _ =>
              bind (call ContextCookies) (fun cookies =>
              match cookies with
              | Thrown _ => bind (call Close) (fun _ => Ret None)
              | Done cookies =>
                  let wafCookies := collect cookies [] in
                  match missingCookies wafCookies with
                  | [] => bind (call Close) (fun _ => Ret (Some wafCookies))
                  | _ :: _ => bind (call Close) (fun _ => Ret None)
                  end
              end)))
          end)
      end)
  end).

(** [parts.join(sep)]. *)
Fixpoint join (sep : string) (parts : list string) : string :=
  match parts with
  | [] => ""
  | [p] => p
  | p :: rest => (p ++ sep ++ join sep rest)%string
  end.

(** The [Cookie] header of [getUserInfo] (lines 353-355). *)
Definition cookieString (cookies : object) : string :=
  join "; " (map (fun '(key, value) => (key ++ "=" ++ value)%string) cookies).

(** The object [getUserInfo] returns. *)
Record BasicInfo : Type := MkBasicInfo {
  username : option string;
  email : option string;
  quota : option Z;
  usedQuota : option Z;
  affCode : option string
}.

(** [getUserInfo] (lines 351-397); [response.data.data || {}] gives an
    object without fields when the payload is missing. *)
Definition getUserInfo (cookies : object) : prog (option BasicInfo) :=
  bind (call (GetSelf (cookieString cookies))) (fun response =>
  match response with
  | Thrown _ => Ret None
  | Done (status, data) =>
      if (status =? 200) && Api.success data
      then
        match Api.data data with
        | Some userData =>
            Ret (Some (MkBasicInfo (UserData.username userData)
                         (UserData.email userData)
                         (Some (UserData.quota userData))
                         (Some (UserData.used_quota userData))
                         (UserData.aff_code userData)))
        | None => Ret (Some (MkBasicInfo None None None None None))
        end
      else Ret None
  end).

Definition trace : Type := list { r : request & response r }.

Definition requests (tr : trace) : list request := map (@projT1 _ _) tr.

Section Run.
Variable W : Type.
Variable respond : W -> forall r : request, response r * W.

Fixpoint run {A : Type} (p : prog A) (w : W) : A * trace * W :=
  match p with
  | Ret a => (a, [], w)
  | Call r k =>
      let (x, w1) := respond w r in
      let '(a, tr, w2) := run (k x) w1 in
      (a, existT _ r x :: tr, w2)
  end.

Definition result_of {A : Type} (p : prog A) (w : W) : A := fst (fst (run p w)).
Definition trace_of {A : Type} (p : prog A) (w : W) : trace := snd (fst (run p w)).
End Run.

(** The value of the last cookie named [n]. *)
Definition lastValue (n : string) (cookies : list Cookie) : option string :=
  option_map value (find (fun c => String.eqb n (name c)) (rev cookies)).

(** A browser that answers every step, serves [cookies], and rejects the
    steps for which [fails] holds. *)
Definition browser (cookies : list Cookie) (fails : request -> bool) (w : unit)
    (r : request) : response r * unit :=
  match r return response r * unit with
  | Launch => (if fails Launch then Thrown "launch failed" else Done tt, w)
  | NewPage => (if fails NewPage then Thrown "no page" else Done tt, w)
  | GotoLogin => (if fails GotoLogin then Thrown "net::ERR_TIMED_OUT" else Done tt, w)
  | WaitComplete => (if fails WaitComplete then Thrown "Timeout 5000ms" else Done tt, w)
  | RandomDelay _ _ => (tt, w)
  | ContextCookies =>
      (if fails ContextCookies then Thrown "context closed" else Done cookies, w)
  | Close => (tt, w)
  | GetSelf _ => (Thrown "unused", w)
  end.

(** The cookies of a visit that passed the challenge, with a stale first
    value for [acw_tc]. *)
Definition passed : list Cookie :=
  [MkCookie "acw_tc" "stale"; MkCookie "session" "s1";
   MkCookie "cdn_sec_tc" "c2"; MkCookie "acw_sc__v2" "v3";
   MkCookie "acw_tc" "t1"].

End Waf.

(** ** The command-line entry (lines 840-876) *)

Module Cli.

(** The built-in session of line 852. *)
Definition defaultSession : string :=
  "MTc2MjI5ODE4NXxEWDhFQVFMX2dBQUJFQUVRQUFEXzRfLUFBQWNHYzNSeWFXNW5EQVFBQW1sa0EybHVkQVFGQVAwQ3ZGWUdjM1J5YVc1bkRBb0FDSFZ6WlhKdVlXMWxCbk4wY21sdVp3d1BBQTFzYVc1MWVHUnZYemc1TmpReUJuTjBjbWx1Wnd3R0FBUnliMnhsQTJsdWRBUUNBQUlHYzNSeWFXNW5EQWdBQm5OMFlYUjFjd05wYm5RRUFnQUNCbk4wY21sdVp3d0hBQVZuY205MWNBWnpkSEpwYm1jTUNRQUhaR1ZtWVhWc2RBWnpkSEpwYm1jTUJRQURZV1ptQm5OMGNtbHVad3dHQUFSak1UVkJCbk4wY21sdVp3d05BQXR2WVhWMGFGOXpkR0YwWlFaemRISnBibWNNRGdBTWJVSnhVVmRXVVZwQlFYZHV8Qrat05CfISodKG799ailLIv3aCMk6c-YCJ7z5UcA-Kg=".

Definition defaultApiUser : string := "89643".

(** [process.argv[2] || defaultSession] and [process.argv[3] || '89643']. *)
Definition session (argv2 : option string) : string := JS.orS argv2 defaultSession.
Definition apiUser (argv3 : option string) : string := JS.orS argv3 defaultApiUser.

(** The guard [!session || !apiUser] of line 855. *)
Definition usageError (argv2 argv3 : option string) : bool :=
  negb (JS.truthyS (Some (session argv2)))
  || negb (JS.truthyS (Some (apiUser argv3))).

(** What the entry runs: nothing after the usage message ([process.exit]),
    else [signIn(session, apiUser)], whose [accountInfo] defaults to
    [null]. *)
Definition main (argv2 argv3 : option string) : option (prog SignInResult) :=
  if usageError argv2 argv3 then None else Some (signIn None).

End Cli.

(** ** Plans: what a pass is expected to request *)

(** The request of one entry in the management loop. *)
Definition managePlan (tokenConfig : TokenConfig.t) : list request :=
  match JS.nonZero (TokenConfig.id tokenConfig) with
  | Some tokenId =>
      if JS.truthyB (TokenConfig.is_deleted tokenConfig)
      then [DeleteToken tokenId]
      else []
  | None =>
      [PostToken
         (createTokenBody
            (CreateConfig.Build
               (Some (JS.truthyB (TokenConfig.unlimited_quota tokenConfig)))
               (TokenConfig.remain_quota tokenConfig)
               (TokenConfig.name tokenConfig)))]
  end.

(** Two token records that differ at most in [remain_quota]. *)
Definition sameButRemain (t t' : RemoteToken.t) : Prop :=
  t' = RemoteToken.with_remain_quota t (RemoteToken.remain_quota t').





(** A ledger call that says something: a bulk upload with at least one
    record, a key update with an [updateData] part. *)
Definition meaningful (r : request) : Prop :=
  match r with
  | AddKeys keys => keys <> []
  | UpdateKeyInfo info => KeyUpdate.updateData info <> None
  | _ => True
  end.

(** What a run without account info may request: no deletion, no update,
    no ledger call, and no creation but the bootstrap one. *)
Definition withoutConfigRequest (r : request) : Prop :=
  match r with
  | DeleteToken _ | PutToken _ | AddKeys _ | UpdateKeyInfo _ => False
  | PostToken body => body = bootstrapBody
  | _ => True
  end.

(** More responders. *)
Module Scenario2.

(** A console that cannot be reached: the sign-in fetch throws with
    [error]. *)
Definition offline (error : string) (w : unit) (r : request) : response r * unit :=
  match r return response r * unit with
  | PostSignIn => (FetchError error, w)
  | r' => Scenario.agreeable None [] w r'
  end.

(** A desired list with a deletion, a creation, an entry with id 0 and an
    entry that only names an existing token. *)
Definition mixed : list TokenConfig.t :=
  [TokenConfig.Build (Some 3) None None (Some true) None None None None None;
   Scenario.toCreate "spare";
   TokenConfig.Build (Some 0) None (Some "zero") None None None None None None;
   TokenConfig.Build (Some 5) None (Some "kept") None None None None None None].

(** An HTTP client answering [GetSelf] with status 200 and [body]. *)
Definition client (body : Api.body UserData.t) (w : unit) (r : Waf.request)
  : Waf.response r * unit :=
  match r return Waf.response r * unit with
  | Waf.GetSelf _ => (Waf.Done (200, body), w)
  | r' => Waf.browser [] (fun _ => false) w r'
  end.

End Scenario2.

(** Unfolds a run up to the next request, whose answer a hypothesis gives. *)
Ltac step_with H :=
  unfold result_of, trace_of, world_of; simpl; rewrite H; simpl.

(** ** Facts on runs *)

Section RunFacts.
Variable W : Type.
Variable respond : W -> forall r : request, response r * W.

Lemma run_bind (A B : Type) (p : prog A) (f : A -> prog B) (w : W) :
  run respond (bind p f) w =
  let '(a, t1, w1) := run respond p w in
  let '(b, t2, w2) := run respond (f a) w1 in
  (b, t1 ++ t2, w2).
Proof.
  revert w. induction p as [a | r k IH]; intros w; simpl.
  - destruct (run respond (f a) w) as [[b t2] w2]. reflexivity.
  - destruct (respond w r) as [x w1]. rewrite IH.
    destruct (run respond (k x) w1) as [[a t1] w1'].
    destruct (run respond (f a) w1') as [[b t2] w2]. reflexivity.
Qed.

Lemma result_of_bind (A B : Type) (p : prog A) (f : A -> prog B) (w : W) :
  result_of respond (bind p f) w =
  result_of respond (f (result_of respond p w)) (world_of respond p w).
Proof.
  unfold result_of, world_of. rewrite run_bind.
  destruct (run respond p w) as [[a t1] w1]. simpl.
  destruct (run respond (f a) w1) as [[b t2] w2]. reflexivity.
Qed.

Lemma trace_of_bind (A B : Type) (p : prog A) (f : A -> prog B) (w : W) :
  trace_of respond (bind p f) w =
  trace_of respond p w
  ++ trace_of respond (f (result_of respond p w)) (world_of respond p w).
Proof.
  unfold trace_of, result_of, world_of. rewrite run_bind.
  destruct (run respond p w) as [[a t1] w1]. simpl.
  destruct (run respond (f a) w1) as [[b t2] w2]. reflexivity.
Qed.

Lemma world_of_bind (A B : Type) (p : prog A) (f : A -> prog B) (w : W) :
  world_of respond (bind p f) w =
  world_of respond (f (result_of respond p w)) (world_of respond p w).
Proof.
  unfold result_of, world_of. rewrite run_bind.
  destruct (run respond p w) as [[a t1] w1]. simpl.
  destruct (run respond (f a) w1) as [[b t2] w2]. reflexivity.
Qed.

Lemma trace_of_Ret (A : Type) (a : A) (w : W) : trace_of respond (Ret a) w = [].
Proof. reflexivity. Qed.

Lemma result_of_Ret (A : Type) (a : A) (w : W) : result_of respond (Ret a) w = a.
Proof. reflexivity. Qed.

Lemma world_of_Ret (A : Type) (a : A) (w : W) : world_of respond (Ret a) w = w.
Proof. reflexivity. Qed.

Lemma trace_of_call (r : request) (w : W) :
  trace_of respond (call r) w = [existT _ r (fst (respond w r))].
Proof.
  unfold trace_of, call. simpl. destruct (respond w r). reflexivity.
Qed.

Lemma result_of_call (r : request) (w : W) :
  result_of respond (call r) w = fst (respond w r).
Proof.
  unfold result_of, call. simpl. destruct (respond w r). reflexivity.
Qed.

Lemma world_of_call (r : request) (w : W) :
  world_of respond (call r) w = snd (respond w r).
Proof.
  unfold world_of, call. simpl. destruct (respond w r). reflexivity.
Qed.

Lemma only_trace (P : request -> Prop) (A : Type) (p : prog A) :
  only P p -> forall w, Forall P (requests (trace_of respond p w)).
Proof.
  induction 1 as [a | r k Hr Hk IH]; intros w.
  - constructor.
  - unfold trace_of. simpl. destruct (respond w r) as [x w1].
    specialize (IH x w1). unfold trace_of in IH.
    destruct (run respond (k x) w1) as [[a tr] w2]. simpl in *.
    constructor; assumption.
Qed.
End RunFacts.

Lemma requests_app (t1 t2 : trace) : requests (t1 ++ t2) = requests t1 ++ requests t2.
Proof. apply map_app. Qed.

Lemma only_bind (P : request -> Prop) (A B : Type) (p : prog A) (f : A -> prog B) :
  only P p -> (forall a, only P (f a)) -> only P (bind p f).
Proof.
  intros Hp Hf. induction Hp as [a | r k Hr Hk IH]; simpl.
  - apply Hf.
  - constructor; assumption.
Qed.

Lemma only_call (P : request -> Prop) (r : request) : P r -> only P (call r).
Proof. intros Hr. constructor; [assumption | intros x; constructor]. Qed.

Lemma only_weaken (P Q : request -> Prop) (A : Type) (p : prog A) :
  (forall r, P r -> Q r) -> only P p -> only Q p.
Proof.
  intros HPQ Hp. induction Hp as [a | r k Hr Hk IH]; constructor; auto.
Qed.

Create Rewrite HintDb run.
#[local] Hint Rewrite trace_of_bind result_of_bind world_of_bind
  trace_of_Ret result_of_Ret world_of_Ret
  trace_of_call result_of_call world_of_call requests_app : run.

(** ** The request body of [createToken] *)

(** C4.  For every creation config the body of the create request carries
    either [unlimited_quota: true] or an integer [remain_quota] and never
    both, [createToken] sends exactly that body once, and a config that
    leaves the quota mode, the amount and the name unspecified gets
    [remain_quota] 500000 and the name ["dw"]. *)
Theorem createToken_body_one_quota_mode :
  forall (W : Type) (respond : W -> forall r : request, response r * W) (w : W)
         (tokenConfig : CreateConfig.t),
    let body := createTokenBody tokenConfig in
    requests (trace_of respond (createToken tokenConfig) w) = [PostToken body]
    /\ ((CreateBody.unlimited_quota body = Some true
         /\ CreateBody.remain_quota body = None)
        \/ (CreateBody.unlimited_quota body = None
            /\ exists q : Z, CreateBody.remain_quota body = Some q))
    /\ (JS.truthyB (CreateConfig.unlimited_quota tokenConfig) = false ->
        CreateConfig.remain_quota tokenConfig = None ->
        CreateBody.unlimited_quota body = None
        /\ CreateBody.remain_quota body = Some 500000)
    /\ (CreateConfig.name tokenConfig = None -> CreateBody.name body = "dw").
Proof.
  intros W respond w tokenConfig body. subst body.
  unfold createToken, createTokenBody.
  autorewrite with run. simpl.
  split; [reflexivity |].
  destruct tokenConfig as [unlimited remain name]; simpl.
  destruct (JS.truthyB unlimited) eqn:Hu; simpl.
  - split; [left; split; reflexivity |].
    split; [intros Hf; discriminate Hf |].
    intros ->. reflexivity.
  - split; [right; split; [reflexivity | eexists; reflexivity] |].
    split.
    + intros _ ->. split; reflexivity.
    + intros ->. reflexivity.
Qed.

(** The defaults on the empty config [{}]. *)
Lemma createToken_body_defaults :
  CreateBody.unlimited_quota (createTokenBody (CreateConfig.Build None None None)) = None
  /\ CreateBody.remain_quota (createTokenBody (CreateConfig.Build None None None))
     = Some 500000.
Proof.
  apply (createToken_body_one_quota_mode (Scenario.agreeable None []) tt
           (CreateConfig.Build None None None)); reflexivity.
Defined.

(** ** Sign-in outcomes *)

(** C5.  When the snapshot fetched after an accepted sign-in is banned
    ([status] 2), [signIn] returns [{success: true, userInfo}] with that
    snapshot and the only requests of the run are the sign-in, the snapshot
    fetch and the release of the browser context: no token is listed,
    created, deleted or updated and the ledger is not called. *)
Theorem signIn_banned_returns_at_once :
  forall (W : Type) (respond : W -> forall r : request, response r * W) (w w1 w2 : W)
         (accountInfo : option AccountInfo.t) (data : SignInBody.t)
         (fetchedSelf : option (Api.body UserData.t)) (userInfo : UserInfo.t),
    respond w PostSignIn = (FetchResponse 200 data, w1) ->
    signInAccepted data = true ->
    respond w1 GetUserSelf = (fetchedSelf, w2) ->
    userInfoOf fetchedSelf = Some userInfo ->
    UserInfo.status userInfo = Some 2 ->
    result_of respond (signIn accountInfo) w = Success (Some userInfo)
    /\ requests (trace_of respond (signIn accountInfo) w)
       = [PostSignIn; GetUserSelf; ContextClose].
Proof.
  intros W respond w w1 w2 accountInfo data fetchedSelf userInfo
         Hsign Hok Hself Huser Hbanned.
  split.
  - step_with Hsign. rewrite Hok. simpl. rewrite Hself. simpl.
    rewrite Huser, Hbanned. simpl.
    destruct (respond w2 ContextClose). reflexivity.
  - step_with Hsign. rewrite Hok. simpl. rewrite Hself. simpl.
    rewrite Huser, Hbanned. simpl.
    destruct (respond w2 ContextClose). reflexivity.
Qed.

(** A banned account on an accepting console. *)
Lemma signIn_banned_example :
  result_of (Scenario.agreeable (Scenario.alice (Some 40000) (Some 2)) [])
            (signIn None) tt
  = Success (Some (UserInfo.Build (Some "alice") (Some "alice@example.org")
                     1000000 250000 (Some "c15A") 40000 (Some 2) None))
  /\ requests (trace_of (Scenario.agreeable (Scenario.alice (Some 40000) (Some 2)) [])
                        (signIn None) tt)
     = [PostSignIn; GetUserSelf; ContextClose].
Proof.
  apply (@signIn_banned_returns_at_once unit
           (Scenario.agreeable (Scenario.alice (Some 40000) (Some 2)) [])
           tt tt tt None (SignInBody.Build None None true None None)
           (Scenario.alice (Some 40000) (Some 2)));
    reflexivity.
Defined.

(** C6.  When the sign-in answer has a status other than 200, or status 200
    and none of the success markers ([ret === 1], [code === 0], truthy
    [success]), [signIn] returns [{success: false, error}]; the error is
    the remote [msg], else the remote [message], else the generic text, for
    a 200 answer, and ["HTTP <status>"] otherwise.  The run consists of the
    sign-in request and the release of the browser context: no snapshot
    fetch, no reward transfer, no token request, no ledger call. *)
Theorem signIn_rejected_stops :
  forall (W : Type) (respond : W -> forall r : request, response r * W) (w w1 : W)
         (accountInfo : option AccountInfo.t) (status : Z) (data : SignInBody.t),
    respond w PostSignIn = (FetchResponse status data, w1) ->
    status <> 200
    \/ (SignInBody.ret data <> Some 1
        /\ SignInBody.code data <> Some 0
        /\ SignInBody.success data = false) ->
    result_of respond (signIn accountInfo) w
    = Failure (if status =? 200
               then JS.orS (SignInBody.msg data)
                      (JS.orS (SignInBody.message data) "未知错误")
               else ("HTTP " ++ JS.showZ status)%string)
    /\ requests (trace_of respond (signIn accountInfo) w) = [PostSignIn; ContextClose].
Proof.
  intros W respond w w1 accountInfo status data Hsign Hrej.
  assert (Hbranch : (status =? 200) && signInAccepted data = false).
  { destruct Hrej as [Hst | (Hret & Hcode & Hsucc)].
    - apply Z.eqb_neq in Hst. rewrite Hst. reflexivity.
    - apply andb_false_iff. right. unfold signInAccepted.
      rewrite Hsucc.
      destruct (SignInBody.ret data) as [r |]; simpl.
      + destruct (Z.eqb_spec r 1) as [-> | _]; [congruence |].
        destruct (SignInBody.code data) as [c |]; simpl; [| reflexivity].
        destruct (Z.eqb_spec c 0) as [-> | _]; [congruence | reflexivity].
      + destruct (SignInBody.code data) as [c |]; simpl; [| reflexivity].
        destruct (Z.eqb_spec c 0) as [-> | _]; [congruence | reflexivity]. }
  split.
  - step_with Hsign.
    destruct (status =? 200); simpl in *.
    + rewrite Hbranch. simpl. destruct (respond w1 ContextClose). reflexivity.
    + destruct (respond w1 ContextClose). reflexivity.
  - step_with Hsign.
    destruct (status =? 200); simpl in *.
    + rewrite Hbranch. simpl. destruct (respond w1 ContextClose). reflexivity.
    + destruct (respond w1 ContextClose). reflexivity.
Qed.

(** A console answering 403, and one answering 200 with
    [{success: false, message}]. *)
Lemma signIn_rejected_example :
  (result_of (Scenario.refusing 403 "session expired") (signIn None) tt
   = Failure "HTTP 403"
   /\ requests (trace_of (Scenario.refusing 403 "session expired") (signIn None) tt)
      = [PostSignIn; ContextClose])
  /\ (result_of (Scenario.refusing 200 "session expired") (signIn None) tt
      = Failure "session expired"
      /\ requests (trace_of (Scenario.refusing 200 "session expired") (signIn None) tt)
         = [PostSignIn; ContextClose]).
Proof.
  split.
  - apply (@signIn_rejected_stops unit (Scenario.refusing 403 "session expired")
             tt tt None 403
             (SignInBody.Build None None false None (Some "session expired"))).
    + reflexivity.
    + left. discriminate.
  - apply (@signIn_rejected_stops unit (Scenario.refusing 200 "session expired")
             tt tt None 200
             (SignInBody.Build None None false None (Some "session expired"))).
    + reflexivity.
    + right. repeat split; discriminate.
Defined.

(** ** Which requests a pass can issue *)

Section Kinds.
Variable P : request -> Prop.

Lemma only_getTokens : P GetTokens -> only P getTokens.
Proof.
  intros H. unfold getTokens. apply only_bind.
  - apply only_call, H.
  - intros a. constructor.
Qed.

Lemma only_createToken (tokenConfig : CreateConfig.t) :
  (forall b, P (PostToken b)) -> only P (createToken tokenConfig).
Proof.
  intros H. unfold createToken. apply only_bind.
  - apply only_call, H.
  - intros a. constructor.
Qed.

Lemma only_deleteToken (tokenId : Z) :
  (forall i, P (DeleteToken i)) -> only P (deleteToken tokenId).
Proof.
  intros H. unfold deleteToken. apply only_bind.
  - apply only_call, H.
  - intros a. constructor.
Qed.

Lemma only_updateToken (tokenData : RemoteToken.t) :
  (forall d, P (PutToken d)) -> only P (updateToken tokenData).
Proof.
  intros H. unfold updateToken. apply only_bind.
  - apply only_call, H.
  - intros a. constructor.
Qed.

Lemma only_manageTokens (configs : list TokenConfig.t) :
  (forall b, P (PostToken b)) -> (forall i, P (DeleteToken i)) ->
  forall pending, only P (manageTokens configs pending).
Proof.
  intros Hpost Hdel.
  induction configs as [| c rest IH]; intros pending; simpl.
  - constructor.
  - apply only_bind; [| intros a; apply IH].
    unfold manageToken.
    destruct (JS.nonZero (TokenConfig.id c)) as [tokenId |].
    + destruct (JS.truthyB (TokenConfig.is_deleted c)); [| constructor].
      apply only_bind; [apply only_deleteToken, Hdel | intros; constructor].
    + apply only_bind; [apply only_createToken, Hpost |].
      intros ok.
      destruct (JS.nonEmpty (TokenConfig.name c)) as [name |]; [| constructor].
      destruct (ok && JS.startsWith sellPrefix name); constructor.
Qed.

Lemma only_managePass (accountInfo : option AccountInfo.t) :
  (forall b, P (PostToken b)) -> (forall i, P (DeleteToken i)) ->
  only P (managePass accountInfo).
Proof.
  intros Hpost Hdel. unfold managePass.
  destruct (configuredTokens accountInfo) as [configs |]; [| constructor].
  apply only_manageTokens; assumption.
Qed.

Lemma only_mirrorSupplement (c : TokenConfig.t) (updateResult : RemoteToken.t) :
  P DateNow -> (forall i, P (UpdateKeyInfo i)) ->
  only P (mirrorSupplement c updateResult).
Proof.
  intros Hnow Hupd. unfold mirrorSupplement.
  destruct (JS.nonEmpty (TokenConfig.key c)) as [key |]; [| constructor].
  apply only_bind; [apply only_call, Hnow |].
  intros now. apply only_bind; [apply only_call, Hupd | intros; constructor].
Qed.

Lemma only_supplementTokens (configs : list TokenConfig.t) :
  (forall d, P (PutToken d)) -> P DateNow -> (forall i, P (UpdateKeyInfo i)) ->
  forall tokens, only P (supplementTokens configs tokens).
Proof.
  intros Hput Hnow Hupd.
  induction configs as [| c rest IH]; intros tokens; simpl.
  - constructor.
  - apply only_bind; [| intros a; apply IH].
    unfold supplementToken.
    destruct (find (sameId c) tokens) as [matched |]; [| constructor].
    apply only_bind; [apply only_updateToken, Hput |].
    intros [updateResult |]; [| constructor].
    apply only_bind; [apply only_mirrorSupplement; assumption |].
    intros; constructor.
Qed.

Lemma only_supplementPass (accountInfo : option AccountInfo.t)
    (tokens : list RemoteToken.t) :
  (forall d, P (PutToken d)) -> P DateNow -> (forall i, P (UpdateKeyInfo i)) ->
  only P (supplementPass accountInfo tokens).
Proof.
  intros Hput Hnow Hupd. unfold supplementPass.
  destruct (configuredTokens accountInfo) as [configs |]; [| constructor].
  apply only_supplementTokens; assumption.
Qed.

Lemma only_uploadPending (accountInfo : option AccountInfo.t)
    (tokens : list RemoteToken.t) (pending : list Pending.t) :
  (forall k, P (AddKeys k)) -> only P (uploadPending accountInfo tokens pending).
Proof.
  intros Hadd. unfold uploadPending.
  destruct pending as [| p rest]; [constructor |].
  destruct (keysToUpload accountInfo tokens (p :: rest)) as [| k ks]; [constructor |].
  apply only_bind; [apply only_call, Hadd | intros; constructor].
Qed.

Lemma only_syncSellTokens (tokens : list RemoteToken.t)
    (configs : list TokenConfig.t) :
  P DateNow -> (forall i, P (UpdateKeyInfo i)) ->
  only P (syncSellTokens tokens configs).
Proof.
  intros Hnow Hupd.
  induction configs as [| c rest IH]; simpl.
  - constructor.
  - apply only_bind; [| intros a; apply IH].
    unfold syncSellToken.
    destruct (find (sameKeyOrId c) tokens) as [current |]; [| constructor].
    match goal with |- only _ (if ?b then _ else _) => destruct b end;
      [| constructor].
    apply only_bind; [apply only_call, Hnow |].
    intros now. apply only_bind; [apply only_call, Hupd | intros; constructor].
Qed.

Lemma only_driftSync (accountInfo : option AccountInfo.t)
    (tokens : list RemoteToken.t) :
  P DateNow -> (forall i, P (UpdateKeyInfo i)) ->
  only P (driftSync accountInfo tokens).
Proof.
  intros Hnow Hupd. unfold driftSync.
  destruct (configuredTokens accountInfo) as [configs |]; [| constructor].
  apply only_syncSellTokens; assumption.
Qed.

Lemma only_fetchAndSupplement (accountInfo : option AccountInfo.t) :
  P GetTokens -> (forall b, P (PostToken b)) ->
  (forall d, P (PutToken d)) -> P DateNow -> (forall i, P (UpdateKeyInfo i)) ->
  only P (fetchAndSupplement accountInfo).
Proof.
  intros Hget Hpost Hput Hnow Hupd. unfold fetchAndSupplement.
  apply only_bind; [apply only_getTokens, Hget |].
  intros [| t ts].
  - apply only_bind; [apply only_createToken, Hpost |].
    intros [|]; [apply only_getTokens, Hget | constructor].
  - apply only_supplementPass; assumption.
Qed.

Lemma only_reconcile (accountInfo : option AccountInfo.t) (userInfo : UserInfo.t) :
  P GetTokens -> (forall b, P (PostToken b)) -> (forall i, P (DeleteToken i)) ->
  (forall d, P (PutToken d)) -> P DateNow -> (forall i, P (UpdateKeyInfo i)) ->
  (forall k, P (AddKeys k)) ->
  only P (reconcile accountInfo userInfo).
Proof.
  intros Hget Hpost Hdel Hput Hnow Hupd Hadd. unfold reconcile.
  apply only_bind.
  { apply only_managePass; assumption. }
  intros pending. apply only_bind.
  { apply only_fetchAndSupplement; assumption. }
  intros tokens. apply only_bind.
  { apply only_uploadPending; assumption. }
  intros _. apply only_bind.
  { apply only_driftSync; assumption. }
  intros _. constructor.
Qed.
End Kinds.

(** ** The reward transfer *)

Lemma transfers_app (a b : list request) :
  transfers (a ++ b) = transfers a ++ transfers b.
Proof. apply flat_map_app. Qed.

Lemma tokenUpdates_app (a b : list request) :
  tokenUpdates (a ++ b) = tokenUpdates a ++ tokenUpdates b.
Proof. apply flat_map_app. Qed.

Lemma keyUpdates_app (a b : list request) :
  keyUpdates (a ++ b) = keyUpdates a ++ keyUpdates b.
Proof. apply flat_map_app. Qed.

Lemma transfers_none (rs : list request) :
  Forall (fun r => forall q, r <> PostAffTransfer q) rs -> transfers rs = [].
Proof.
  induction 1 as [| r rs Hr _ IH]; [reflexivity |].
  unfold transfers in *. simpl. rewrite IH.
  destruct r; try reflexivity. exfalso. eapply Hr. reflexivity.
Qed.

Lemma uploads_app (a b : list request) :
  uploads (a ++ b) = uploads a ++ uploads b.
Proof. apply flat_map_app. Qed.

Lemma uploads_none (rs : list request) :
  Forall (fun r => forall k, r <> AddKeys k) rs -> uploads rs = [].
Proof.
  induction 1 as [| r rs Hr _ IH]; [reflexivity |].
  unfold uploads in *. simpl. rewrite IH.
  destruct r; try reflexivity. exfalso. eapply Hr. reflexivity.
Qed.

Lemma attachTokens_reward (userInfo : UserInfo.t) (tokens : list RemoteToken.t) :
  UserInfo.quota (attachTokens userInfo tokens) = UserInfo.quota userInfo
  /\ UserInfo.affQuota (attachTokens userInfo tokens) = UserInfo.affQuota userInfo.
Proof. destruct tokens; split; reflexivity. Qed.

Section SignInFacts.
Variable W : Type.
Variable respond : W -> forall r : request, response r * W.

Lemma reconcile_result (accountInfo : option AccountInfo.t) (userInfo : UserInfo.t)
    (w : W) :
  exists tokens,
    result_of respond (reconcile accountInfo userInfo) w
    = attachTokens userInfo tokens.
Proof.
  unfold reconcile. autorewrite with run. eexists. reflexivity.
Qed.

Lemma reconcile_no_transfer (accountInfo : option AccountInfo.t)
    (userInfo : UserInfo.t) (w : W) :
  transfers (requests (trace_of respond (reconcile accountInfo userInfo) w)) = [].
Proof.
  apply transfers_none. apply only_trace.
  apply only_reconcile; intros; discriminate.
Qed.

(** The run of [signIn] on an accepted sign-in and a snapshot that is not
    banned. *)
Lemma signIn_active (accountInfo : option AccountInfo.t) (w w1 w2 : W)
    (data : SignInBody.t) (fetchedSelf : option (Api.body UserData.t))
    (userInfo : UserInfo.t) :
  respond w PostSignIn = (FetchResponse 200 data, w1) ->
  signInAccepted data = true ->
  respond w1 GetUserSelf = (fetchedSelf, w2) ->
  userInfoOf fetchedSelf = Some userInfo ->
  UserInfo.status userInfo <> Some 2 ->
  result_of respond (signIn accountInfo) w
  = result_of respond (afterSnapshot accountInfo userInfo) w2
  /\ requests (trace_of respond (signIn accountInfo) w)
     = PostSignIn :: GetUserSelf
       :: requests (trace_of respond (afterSnapshot accountInfo userInfo) w2).
Proof.
  intros Hsign Hok Hself Huser Hactive.
  assert (Hnb : JS.eqZ (UserInfo.status userInfo) (Some 2) = false).
  { destruct (UserInfo.status userInfo) as [s |]; simpl; [| reflexivity].
    apply Z.eqb_neq. congruence. }
  unfold signIn. split.
  - rewrite result_of_bind, result_of_call, world_of_call, Hsign. cbn [fst snd].
    rewrite Z.eqb_refl, Hok.
    rewrite result_of_bind, result_of_call, world_of_call, Hself. cbn [fst snd].
    rewrite Huser, Hnb. reflexivity.
  - rewrite trace_of_bind, trace_of_call, result_of_call, world_of_call, Hsign.
    cbn [fst snd]. rewrite Z.eqb_refl, Hok.
    rewrite trace_of_bind, trace_of_call, result_of_call, world_of_call, Hself.
    cbn [fst snd]. rewrite Huser, Hnb. reflexivity.
Qed.
End SignInFacts.

(** C7, as the code has it.  For a snapshot that is not banned: when its
    reward quota is positive, [signIn] requests exactly one transfer, of
    that amount, and whatever the answer the snapshot it returns has the
    reward added to its quota and a reward of zero; when the reward quota
    is zero (also for a missing [aff_quota]) or negative, no transfer is
    requested and quota and reward are returned as fetched. *)
Theorem reward_transfer_when_not_banned :
  forall (W : Type) (respond : W -> forall r : request, response r * W) (w w1 w2 : W)
         (accountInfo : option AccountInfo.t) (data : SignInBody.t)
         (fetchedSelf : option (Api.body UserData.t)) (userInfo : UserInfo.t),
    respond w PostSignIn = (FetchResponse 200 data, w1) ->
    signInAccepted data = true ->
    respond w1 GetUserSelf = (fetchedSelf, w2) ->
    userInfoOf fetchedSelf = Some userInfo ->
    UserInfo.status userInfo <> Some 2 ->
    exists userInfo',
      result_of respond (signIn accountInfo) w = Success (Some userInfo')
      /\ (0 < UserInfo.affQuota userInfo ->
          transfers (requests (trace_of respond (signIn accountInfo) w))
          = [UserInfo.affQuota userInfo]
          /\ UserInfo.quota userInfo'
             = UserInfo.quota userInfo + UserInfo.affQuota userInfo
          /\ UserInfo.affQuota userInfo' = 0)
      /\ (UserInfo.affQuota userInfo <= 0 ->
          transfers (requests (trace_of respond (signIn accountInfo) w)) = []
          /\ UserInfo.quota userInfo' = UserInfo.quota userInfo
          /\ UserInfo.affQuota userInfo' = UserInfo.affQuota userInfo).
Proof.
  intros W respond w w1 w2 accountInfo data fetchedSelf userInfo
         Hsign Hok Hself Huser Hactive.
  destruct (signIn_active respond accountInfo _ Hsign Hok Hself Huser Hactive)
    as [Hres Htr].
  rewrite Hres, Htr. clear Hres Htr.
  unfold afterSnapshot. autorewrite with run.
  set (u1 := result_of respond (transferReward userInfo) w2).
  set (w3 := world_of respond (transferReward userInfo) w2).
  destruct (reconcile_result respond accountInfo u1 w3) as [tokens Hrec].
  rewrite Hrec. eexists. split; [reflexivity |].
  destruct (attachTokens_reward u1 tokens) as [Hq Ha]. rewrite Hq, Ha.
  cbn [transfers flat_map app]. fold (transfers). rewrite !transfers_app.
  rewrite reconcile_no_transfer. cbn [transfers flat_map app].
  subst u1 w3. unfold transferReward.
  split; intros Hsgn.
  - assert (Hb : negb (UserInfo.affQuota userInfo =? 0)
                 && (0 <? UserInfo.affQuota userInfo) = true).
    { apply andb_true_iff. split.
      - apply negb_true_iff, Z.eqb_neq. lia.
      - apply Z.ltb_lt. lia. }
    rewrite Hb. autorewrite with run. simpl. repeat split; reflexivity.
  - assert (Hb : negb (UserInfo.affQuota userInfo =? 0)
                 && (0 <? UserInfo.affQuota userInfo) = false).
    { apply andb_false_iff. right. apply Z.ltb_ge. lia. }
    rewrite Hb. autorewrite with run. simpl. repeat split; reflexivity.
Qed.

(** An active account with a reward of 40000 on an accepting console. *)
Lemma reward_transfer_example :
  exists userInfo',
    result_of (Scenario.agreeable (Scenario.alice (Some 40000) (Some 1)) [])
              (signIn None) tt
    = Success (Some userInfo')
    /\ (0 < UserInfo.affQuota (Scenario.aliceInfo 40000 (Some 1)) ->
        transfers (requests (trace_of
                     (Scenario.agreeable (Scenario.alice (Some 40000) (Some 1)) [])
                     (signIn None) tt))
        = [UserInfo.affQuota (Scenario.aliceInfo 40000 (Some 1))]
        /\ UserInfo.quota userInfo'
           = UserInfo.quota (Scenario.aliceInfo 40000 (Some 1))
             + UserInfo.affQuota (Scenario.aliceInfo 40000 (Some 1))
        /\ UserInfo.affQuota userInfo' = 0)
    /\ (UserInfo.affQuota (Scenario.aliceInfo 40000 (Some 1)) <= 0 ->
        transfers (requests (trace_of
                     (Scenario.agreeable (Scenario.alice (Some 40000) (Some 1)) [])
                     (signIn None) tt))
        = []
        /\ UserInfo.quota userInfo' = UserInfo.quota (Scenario.aliceInfo 40000 (Some 1))
        /\ UserInfo.affQuota userInfo'
           = UserInfo.affQuota (Scenario.aliceInfo 40000 (Some 1))).
Proof.
  apply (@reward_transfer_when_not_banned unit
           (Scenario.agreeable (Scenario.alice (Some 40000) (Some 1)) [])
           tt tt tt None (SignInBody.Build None None true None None)
           (Scenario.alice (Some 40000) (Some 1))
           (Scenario.aliceInfo 40000 (Some 1))).
  - reflexivity.
  - reflexivity.
  - reflexivity.
  - reflexivity.
  - discriminate.
Defined.

(** C7 as stated, refuted: a banned snapshot with a reward of 40000 is
    fetched and the run requests no transfer. *)
Lemma banned_reward_not_transferred :
  userInfoOf (Scenario.alice (Some 40000) (Some 2))
  = Some (Scenario.aliceInfo 40000 (Some 2))
  /\ 0 < UserInfo.affQuota (Scenario.aliceInfo 40000 (Some 2))
  /\ transfers (requests (trace_of
                  (Scenario.agreeable (Scenario.alice (Some 40000) (Some 2)) [])
                  (signIn None) tt))
     = [].
Proof.
  split; [reflexivity |]. split; [reflexivity | reflexivity].
Qed.

(** ** The bootstrap token *)

Section ReconcileFacts.
Variable W : Type.
Variable respond : W -> forall r : request, response r * W.

(** The trace of [reconcile], pass by pass. *)
Lemma reconcile_trace (accountInfo : option AccountInfo.t) (userInfo : UserInfo.t)
    (w : W) :
  exists pending tokens w1 w2 w3,
    w1 = world_of respond (managePass accountInfo) w
    /\ trace_of respond (reconcile accountInfo userInfo) w
       = trace_of respond (managePass accountInfo) w
         ++ trace_of respond (fetchAndSupplement accountInfo) w1
         ++ trace_of respond (uploadPending accountInfo tokens pending) w2
         ++ trace_of respond (driftSync accountInfo tokens) w3.
Proof.
  unfold reconcile. autorewrite with run. rewrite app_nil_r.
  do 5 eexists. split; reflexivity.
Qed.

(** The trace of the fetch and of what follows it. *)
Lemma fetchAndSupplement_trace (accountInfo : option AccountInfo.t) (w : W) :
  let listed := fst (respond w GetTokens) in
  let w1 := snd (respond w GetTokens) in
  trace_of respond (fetchAndSupplement accountInfo) w
  = existT _ GetTokens listed
    :: match tokenList listed with
       | [] =>
           let created := fst (respond w1 (PostToken bootstrapBody)) in
           let w2 := snd (respond w1 (PostToken bootstrapBody)) in
           existT _ (PostToken bootstrapBody) created
           :: (if accepted created
               then [existT _ GetTokens (fst (respond w2 GetTokens))]
               else [])
       | tokens => trace_of respond (supplementPass accountInfo tokens) w1
       end.
Proof.
  unfold fetchAndSupplement, getTokens. autorewrite with run.
  cbn [app]. f_equal.
  destruct (tokenList (fst (respond w GetTokens))) as [| t ts]; [| reflexivity].
  unfold createToken. autorewrite with run.
  change (createTokenBody (CreateConfig.Build (Some true) None None))
    with bootstrapBody.
  cbn [app]. f_equal.
  destruct (accepted (fst (respond (snd (respond w GetTokens))
                                   (PostToken bootstrapBody)))).
  - autorewrite with run. reflexivity.
  - reflexivity.
Qed.
End ReconcileFacts.

(** C9, as the code has it.  With an empty desired list and a token list
    that comes back empty, the reconciliation issues exactly one create
    request, for an unlimited-quota token, and lists the tokens again when
    that request is accepted; when it is refused nothing follows it. *)
Theorem bootstrap_on_empty_account :
  forall (W : Type) (respond : W -> forall r : request, response r * W) (w w1 w2 : W)
         (accountInfo : option AccountInfo.t) (userInfo : UserInfo.t)
         (listed : fetched (Api.body (list RemoteToken.t)))
         (created : fetched (Api.body unit)),
    configuredTokens accountInfo = None \/ configuredTokens accountInfo = Some [] ->
    respond w GetTokens = (listed, w1) ->
    tokenList listed = [] ->
    respond w1 (PostToken bootstrapBody) = (created, w2) ->
    CreateBody.unlimited_quota bootstrapBody = Some true
    /\ CreateBody.remain_quota bootstrapBody = None
    /\ requests (trace_of respond (reconcile accountInfo userInfo) w)
       = GetTokens :: PostToken bootstrapBody
         :: (if accepted created then [GetTokens] else []).
Proof.
  intros W respond w w1 w2 accountInfo userInfo listed created
         Hcfg Hlist Hempty Hcreate.
  split; [reflexivity |]. split; [reflexivity |].
  assert (Hmanage : managePass accountInfo = Ret []).
  { unfold managePass. destruct Hcfg as [-> | ->]; reflexivity. }
  assert (Hdrift : forall ts, driftSync accountInfo ts = Ret tt).
  { intros ts. unfold driftSync. destruct Hcfg as [-> | ->]; reflexivity. }
  unfold reconcile. rewrite Hmanage. autorewrite with run.
  rewrite Hdrift. autorewrite with run. cbn [uploadPending].
  autorewrite with run.
  rewrite fetchAndSupplement_trace. rewrite Hlist. cbn [fst snd].
  rewrite Hempty, Hcreate. cbn [fst snd].
  destruct (accepted created); reflexivity.
Qed.

(** An account without tokens on an accepting console: the bootstrap token
    is created and the list fetched again. *)
Lemma bootstrap_example :
  CreateBody.unlimited_quota bootstrapBody = Some true
  /\ CreateBody.remain_quota bootstrapBody = None
  /\ requests (trace_of (Scenario.agreeable None [])
                        (reconcile None (Scenario.aliceInfo 0 (Some 1))) tt)
     = [GetTokens; PostToken bootstrapBody; GetTokens].
Proof.
  apply (@bootstrap_on_empty_account unit (Scenario.agreeable None []) tt tt tt
           None (Scenario.aliceInfo 0 (Some 1))
           (FetchResponse 200 (Api.Body true None (Some [])))
           (FetchResponse 200 (Api.Body true None None))).
  - left. reflexivity.
  - reflexivity.
  - reflexivity.
  - reflexivity.
Defined.

(** C9 as stated, refuted: the token list is empty, the desired list is
    empty, the bootstrap request is refused, and the token list is not
    fetched again. *)
Lemma bootstrap_refused_no_refetch :
  tokenList (fst (Scenario.readOnly [] tt GetTokens)) = []
  /\ accepted (fst (Scenario.readOnly [] tt (PostToken bootstrapBody))) = false
  /\ requests (trace_of (Scenario.readOnly [])
                        (reconcile None (Scenario.aliceInfo 0 (Some 1))) tt)
     = [GetTokens; PostToken bootstrapBody].
Proof.
  split; [reflexivity |]. split; reflexivity.
Qed.

(** ** A failed token listing *)

Lemma listFailure_none (tr : trace) :
  Forall (fun r => r <> GetTokens) (requests tr) -> existsb listFailure tr = false.
Proof.
  induction tr as [| [r x] tr IH]; intros H; [reflexivity |].
  inversion H as [| r' rs Hr Hrs]; subst. simpl.
  rewrite (IH Hrs). destruct r; try reflexivity. congruence.
Qed.

Lemma tokenUpdates_none (rs : list request) :
  Forall (fun r => forall d, r <> PutToken d) rs -> tokenUpdates rs = [].
Proof.
  induction 1 as [| r rs Hr _ IH]; [reflexivity |].
  unfold tokenUpdates in *. simpl. rewrite IH.
  destruct r; try reflexivity. exfalso. eapply Hr. reflexivity.
Qed.

Lemma accepted_or_empty (result : fetched (Api.body (list RemoteToken.t))) :
  accepted result = false -> tokenList result = [].
Proof.
  destruct result as [error | status data]; simpl; [reflexivity |].
  intros ->. reflexivity.
Qed.

Lemma failureBootstraps_neutral (tr : trace) :
  Forall neutral (requests tr) -> failureBootstraps tr.
Proof.
  intros H Hfail. rewrite listFailure_none in Hfail; [discriminate Hfail |].
  eapply Forall_impl; [| exact H]. intros r [Hr _]. exact Hr.
Qed.

Lemma failureBootstraps_frame (pre mid post : trace) :
  Forall neutral (requests pre) -> Forall neutral (requests post) ->
  failureBootstraps mid -> failureBootstraps (pre ++ mid ++ post).
Proof.
  intros Hpre Hpost Hmid Hfail.
  assert (Hno : forall t, Forall neutral (requests t) ->
                          existsb listFailure t = false
                          /\ tokenUpdates (requests t) = []).
  { intros t Ht. split.
    - apply listFailure_none. eapply Forall_impl; [| exact Ht].
      intros r [Hr _]. exact Hr.
    - apply tokenUpdates_none. eapply Forall_impl; [| exact Ht].
      intros r [_ Hr]. exact Hr. }
  destruct (Hno pre Hpre) as [Hf1 Hu1]. destruct (Hno post Hpost) as [Hf3 Hu3].
  rewrite !existsb_app, Hf1, Hf3, orb_false_r in Hfail. simpl in Hfail.
  destruct (Hmid Hfail) as [Hin Hupd].
  rewrite !requests_app, !tokenUpdates_app, Hu1, Hu3, Hupd.
  split; [| reflexivity].
  apply in_or_app. right. apply in_or_app. left. exact Hin.
Qed.

Section FailureFacts.
Variable W : Type.
Variable respond : W -> forall r : request, response r * W.

Lemma neutral_trace (A : Type) (p : prog A) (w : W) :
  only neutral p -> Forall neutral (requests (trace_of respond p w)).
Proof. intros H. apply only_trace, H. Qed.

Lemma fetchAndSupplement_failure (accountInfo : option AccountInfo.t) (w : W) :
  failureBootstraps (trace_of respond (fetchAndSupplement accountInfo) w).
Proof.
  rewrite fetchAndSupplement_trace. cbv zeta.
  destruct (tokenList (fst (respond w GetTokens))) as [| t ts] eqn:Hlist.
  - intros _. split.
    + simpl. right. left. reflexivity.
    + destruct (accepted (fst (respond (snd (respond w GetTokens))
                                       (PostToken bootstrapBody))));
        reflexivity.
  - intros Hfail. exfalso.
    assert (Hhead : listFailure (existT _ GetTokens (fst (respond w GetTokens)))
                    = negb (accepted (fst (respond w GetTokens))))
      by reflexivity.
    cbn [existsb] in Hfail. rewrite Hhead in Hfail. clear Hhead.
    destruct (accepted (fst (respond w GetTokens))) eqn:Hacc.
    + cbn [negb orb] in Hfail.
      rewrite listFailure_none in Hfail; [discriminate Hfail |].
      apply only_trace. apply only_supplementPass; intros; discriminate.
    + apply accepted_or_empty in Hacc. congruence.
Qed.

Lemma reconcile_failure (accountInfo : option AccountInfo.t) (userInfo : UserInfo.t)
    (w : W) :
  failureBootstraps (trace_of respond (reconcile accountInfo userInfo) w).
Proof.
  destruct (reconcile_trace respond accountInfo userInfo w)
    as (pending & tokens & w1 & w2 & w3 & _ & ->).
  apply failureBootstraps_frame.
  - apply neutral_trace. apply only_managePass; split; intros; discriminate.
  - rewrite requests_app. apply Forall_app. split.
    + apply neutral_trace. apply only_uploadPending; split; intros; discriminate.
    + apply neutral_trace. apply only_driftSync; try split; intros; discriminate.
  - apply fetchAndSupplement_failure.
Qed.
End FailureFacts.

Section SignInFailure.
Variable W : Type.
Variable respond : W -> forall r : request, response r * W.

Lemma transferReward_neutral (userInfo : UserInfo.t) :
  only neutral (transferReward userInfo).
Proof.
  unfold transferReward.
  match goal with |- only _ (if ?b then _ else _) => destruct b end;
    [| constructor].
  apply only_bind; [| intros; constructor].
  apply only_call. split; intros; discriminate.
Qed.

Lemma signIn_failure (accountInfo : option AccountInfo.t) (w : W) :
  failureBootstraps (trace_of respond (signIn accountInfo) w).
Proof.
  unfold signIn.
  rewrite trace_of_bind, trace_of_call, result_of_call, world_of_call.
  destruct (respond w PostSignIn) as [[error | status data] w1]; cbn [fst snd].
  - apply failureBootstraps_neutral.
    destruct (negb (String.eqb error "")); autorewrite with run;
      repeat constructor; intros; discriminate.
  - destruct (status =? 200).
    2:{ apply failureBootstraps_neutral. autorewrite with run.
        repeat constructor; intros; discriminate. }
    destruct (signInAccepted data).
    2:{ apply failureBootstraps_neutral. autorewrite with run.
        repeat constructor; intros; discriminate. }
    rewrite trace_of_bind, trace_of_call, result_of_call, world_of_call.
    destruct (respond w1 GetUserSelf) as [fetchedSelf w2]; cbn [fst snd].
    destruct (userInfoOf fetchedSelf) as [userInfo |].
    2:{ apply failureBootstraps_neutral. autorewrite with run.
        repeat constructor; intros; discriminate. }
    destruct (JS.eqZ (UserInfo.status userInfo) (Some 2)).
    { apply failureBootstraps_neutral. autorewrite with run.
      repeat constructor; intros; discriminate. }
    unfold afterSnapshot. autorewrite with run.
    rewrite app_nil_r.
    match goal with
    | |- failureBootstraps (?a ++ ?b ++ ?c ++ ?d ++ ?e) =>
        replace (a ++ b ++ c ++ d ++ e) with ((a ++ b ++ c) ++ d ++ e)
          by (rewrite <- !app_assoc; reflexivity);
        apply (@failureBootstraps_frame (a ++ b ++ c) d e)
    end.
    + rewrite !requests_app.
      apply Forall_app; split; [| apply Forall_app; split].
      * repeat constructor; intros; discriminate.
      * repeat constructor; intros; discriminate.
      * apply neutral_trace, transferReward_neutral.
    + repeat constructor; intros; discriminate.
    + apply reconcile_failure.
Qed.
End SignInFailure.

(** C10.  Whenever the answer to the list-tokens request is not an
    accepted one ([{error}], a status other than 200, or a 200 body whose
    [success] is not truthy), [getTokens] returns the empty list, as it
    does for an account without tokens; and in every run of [signIn] in
    which a listing fails, the bootstrap request for an unlimited-quota
    token is issued and no token is updated: the supplement pass is not
    run. *)
Theorem failed_listing_looks_like_empty_account :
  forall (W : Type) (respond : W -> forall r : request, response r * W) (w : W)
         (accountInfo : option AccountInfo.t),
    (forall error, tokenList (FetchError error) = [])
    /\ (forall status data, status <> 200 -> tokenList (FetchResponse status data) = [])
    /\ (forall data, Api.success data = false ->
                     tokenList (FetchResponse 200 data) = [])
    /\ (accepted (fst (respond w GetTokens)) = false ->
        result_of respond getTokens w = [])
    /\ (existsb listFailure (trace_of respond (signIn accountInfo) w) = true ->
        In (PostToken bootstrapBody)
           (requests (trace_of respond (signIn accountInfo) w))
        /\ CreateBody.unlimited_quota bootstrapBody = Some true
        /\ tokenUpdates (requests (trace_of respond (signIn accountInfo) w)) = []).
Proof.
  intros W respond w accountInfo.
  split; [reflexivity |]. split; [| split; [| split]].
  - intros status data Hstatus. apply accepted_or_empty. simpl.
    apply Z.eqb_neq in Hstatus. rewrite Hstatus. reflexivity.
  - intros data Hdata. apply accepted_or_empty. simpl. exact Hdata.
  - intros Hfail. unfold getTokens. autorewrite with run.
    apply accepted_or_empty, Hfail.
  - intros Hfail. destruct (signIn_failure respond accountInfo w Hfail) as [Hin Hupd].
    repeat split; assumption.
Qed.

(** A transport failure of the listing, for an account whose config asks
    for a supplement. *)
Lemma failed_listing_example :
  result_of (Scenario.listingDown (Scenario.alice None (Some 1))) getTokens tt = []
  /\ In (PostToken bootstrapBody)
        (requests (trace_of (Scenario.listingDown (Scenario.alice None (Some 1)))
                            (signIn (Scenario.account [Scenario.supplement7 None])) tt))
  /\ CreateBody.unlimited_quota bootstrapBody = Some true
  /\ tokenUpdates
       (requests (trace_of (Scenario.listingDown (Scenario.alice None (Some 1)))
                           (signIn (Scenario.account [Scenario.supplement7 None])) tt))
     = [].
Proof.
  destruct (failed_listing_looks_like_empty_account
              (Scenario.listingDown (Scenario.alice None (Some 1))) tt
              (Scenario.account [Scenario.supplement7 None]))
    as [_ [_ [_ [Hget Hrun]]]].
  split.
  - apply Hget. reflexivity.
  - apply Hrun. reflexivity.
Defined.

(** ** The supplement pass *)

(** C1, as the code has it.  For a remote token with id 7 and a remaining
    quota of 100000 and a desired entry with id 7, a supplement of 50000
    and key material, the supplement pass sends exactly one update, the
    full record with [remain_quota] 150000; when the update is confirmed
    with a record whose remaining quota is 150000 it makes exactly one
    [updateKeyInfo] call, for that key, with [incData.quota] 0.1 and
    [updateData.remain_quota] 0.3; when the update fails it makes none. *)
Theorem supplement_of_token7 :
  forall (W : Type) (respond : W -> forall r : request, response r * W) (w w1 : W)
         (token : RemoteToken.t) (configToken : TokenConfig.t) (key : string)
         (accountInfo : AccountInfo.t) (answer : fetched (Api.body RemoteToken.t)),
    RemoteToken.id token = 7 ->
    RemoteToken.remain_quota token = Some 100000 ->
    TokenConfig.id configToken = Some 7 ->
    TokenConfig.supplement_quota configToken = Some 50000 ->
    TokenConfig.key configToken = Some key ->
    key <> "" ->
    AccountInfo.tokens accountInfo = Some [configToken] ->
    respond w (PutToken (RemoteToken.with_remain_quota token (Some 150000)))
    = (answer, w1) ->
    let rs := requests (trace_of respond (supplementPass (Some accountInfo) [token]) w) in
    tokenUpdates rs = [RemoteToken.with_remain_quota token (Some 150000)]
    /\ (forall updateResult,
          updatedToken answer = Some updateResult ->
          RemoteToken.remain_quota updateResult = Some 150000 ->
          keyUpdates rs
          = [KeyUpdate.Build key
               (Some (KeyUpdate.Inc 0.1%Q))
               (Some (KeyUpdate.Upd (Some 0.3%Q)
                        (toUnits (JS.orZ (RemoteToken.used_quota updateResult) 0))
                        (fst (respond w1 DateNow))))])
    /\ (updatedToken answer = None -> keyUpdates rs = []).
Proof.
  intros W respond w w1 token configToken key accountInfo answer
         Hid Hremain Hcid Hsupp Hkey Hne Htokens Hput rs.
  assert (Hkey' : JS.nonEmpty (TokenConfig.key configToken) = Some key).
  { rewrite Hkey. simpl. destruct (String.eqb_spec key ""); congruence. }
  assert (Hfilter : filter needsSupplement [configToken] = [configToken]).
  { simpl. unfold needsSupplement. rewrite Hsupp. reflexivity. }
  assert (Hfind : find (sameId configToken) [token] = Some token).
  { simpl. unfold sameId. rewrite Hid, Hcid. reflexivity. }
  subst rs. unfold supplementPass. simpl configuredTokens.
  rewrite Htokens, Hfilter. cbn [supplementTokens].
  unfold supplementToken. rewrite Hfind, Hremain, Hsupp.
  change (JS.orZ (Some 100000) 0 + JS.orZ (Some 50000) 0) with 150000.
  unfold updateToken. autorewrite with run. rewrite Hput. cbn [fst snd].
  destruct (updatedToken answer) as [updateResult |].
  - unfold mirrorSupplement. rewrite Hkey', Hsupp. autorewrite with run.
    split; [reflexivity |]. split; [| discriminate].
    intros u Hu Hr. injection Hu as <-. rewrite Hr. reflexivity.
  - autorewrite with run. split; [reflexivity |].
    split; [discriminate | reflexivity].
Qed.

(** The scenario on a console that confirms the update with the record it
    received. *)
Lemma supplement_of_token7_example :
  let rs := requests (trace_of (Scenario.agreeable None [])
                       (supplementPass (Scenario.account [Scenario.supplement7 (Some "sk-7")])
                                       [Scenario.token7]) tt) in
  tokenUpdates rs = [RemoteToken.with_remain_quota Scenario.token7 (Some 150000)]
  /\ keyUpdates rs
     = [KeyUpdate.Build "sk-7" (Some (KeyUpdate.Inc 0.1%Q))
          (Some (KeyUpdate.Upd (Some 0.3%Q) 0%Q 1700000000000))].
Proof.
  destruct (@supplement_of_token7 unit (Scenario.agreeable None []) tt tt
              Scenario.token7 (Scenario.supplement7 (Some "sk-7")) "sk-7"
              (AccountInfo.Build (Some "acc-1") (Some "alice")
                 (Some [Scenario.supplement7 (Some "sk-7")]))
              (FetchResponse 200
                 (Api.Body true None
                    (Some (RemoteToken.with_remain_quota Scenario.token7 (Some 150000)))))
              eq_refl eq_refl eq_refl eq_refl eq_refl)
    as [Hupdate [Hmirror _]]; try reflexivity.
  - discriminate.
  - split; [exact Hupdate |].
    apply (Hmirror (RemoteToken.with_remain_quota Scenario.token7 (Some 150000)));
      reflexivity.
Defined.

(** C1 as stated, refuted: with the desired entry
    [{id: 7, supplement_quota: 50000}], which has no key, the update is
    confirmed and the ledger is not called. *)
Lemma supplement_without_key_not_mirrored :
  updatedToken
    (fst (Scenario.agreeable None [] tt
            (PutToken (RemoteToken.with_remain_quota Scenario.token7 (Some 150000)))))
  = Some (RemoteToken.with_remain_quota Scenario.token7 (Some 150000))
  /\ requests (trace_of (Scenario.agreeable None [])
                 (supplementPass (Scenario.account [Scenario.supplement7 None])
                                 [Scenario.token7]) tt)
     = [PutToken (RemoteToken.with_remain_quota Scenario.token7 (Some 150000))]
  /\ keyUpdates
       (requests (trace_of (Scenario.agreeable None [])
                    (supplementPass (Scenario.account [Scenario.supplement7 None])
                                    [Scenario.token7]) tt))
     = [].
Proof.
  split; [reflexivity |]. split; reflexivity.
Qed.

(** ** The drift sync *)

Section DriftFacts.
Variable W : Type.
Variable respond : W -> forall r : request, response r * W.

(** The ledger calls of one iteration. *)
Lemma syncSellToken_calls (tokens : list RemoteToken.t) (configToken : TokenConfig.t)
    (w : W) :
  keyUpdates (requests (trace_of respond (syncSellToken tokens configToken) w))
  = match find (sameKeyOrId configToken) tokens with
    | Some currentToken =>
        if driftedOrSold tokens configToken
        then [KeyUpdate.Build (JS.orS (TokenConfig.key configToken) "") None
                (Some (KeyUpdate.Upd
                         (Some (toUnits (JS.orZ (RemoteToken.remain_quota currentToken) 0)))
                         (toUnits (JS.orZ (RemoteToken.used_quota currentToken) 0))
                         (fst (respond w DateNow))))]
        else []
    | None => []
    end.
Proof.
  unfold syncSellToken, driftedOrSold.
  destruct (find (sameKeyOrId configToken) tokens) as [currentToken |];
    [| reflexivity].
  match goal with |- context [if ?b then _ else _] => destruct b end.
  - autorewrite with run. reflexivity.
  - reflexivity.
Qed.

Lemma syncSellTokens_keys (tokens : list RemoteToken.t)
    (configs : list TokenConfig.t) (w : W) :
  map KeyUpdate.key
      (keyUpdates (requests (trace_of respond (syncSellTokens tokens configs) w)))
  = map (fun c => JS.orS (TokenConfig.key c) "") (filter (driftedOrSold tokens) configs)
  /\ Forall (fun info => KeyUpdate.incData info = None)
            (keyUpdates (requests (trace_of respond (syncSellTokens tokens configs) w))).
Proof.
  revert w. induction configs as [| c rest IH]; intros w.
  - split; [reflexivity | constructor].
  - cbn [syncSellTokens filter]. autorewrite with run.
    rewrite keyUpdates_app, map_app, syncSellToken_calls.
    destruct (IH (world_of respond (syncSellToken tokens c) w)) as [IHk IHi].
    rewrite IHk. split.
    + unfold driftedOrSold at 2 3.
      destruct (find (sameKeyOrId c) tokens) as [currentToken |] eqn:Hfind;
        [| reflexivity].
      unfold driftedOrSold at 1. rewrite Hfind.
      match goal with |- context [if ?b then _ else _] => destruct b end;
        reflexivity.
    + apply Forall_app. split; [| exact IHi].
      destruct (find (sameKeyOrId c) tokens) as [currentToken |];
        [| constructor].
      destruct (driftedOrSold tokens c); repeat constructor.
Qed.
End DriftFacts.

(** C2, as the code has it.  The drift sync makes one [updateKeyInfo] call,
    an absolute overwrite without increment, for each desired entry that is
    a sale entry with key material, is matched to a current remote token by
    key or id, and either has a recorded used quota different from the
    token's or is marked sold; it makes no other ledger call.  An entry is
    such a one exactly when a matched token exists and one of the two
    conditions holds: matched entries with unchanged used quota that are
    not marked sold, and unmatched entries, get no call. *)
Theorem driftSync_calls_for_drifted_or_sold :
  forall (W : Type) (respond : W -> forall r : request, response r * W) (w : W)
         (accountInfo : option AccountInfo.t) (tokens : list RemoteToken.t),
    let rs := requests (trace_of respond (driftSync accountInfo tokens) w) in
    map KeyUpdate.key (keyUpdates rs)
    = map (fun c => JS.orS (TokenConfig.key c) "")
          (filter (driftedOrSold tokens) (sellTokenConfigs accountInfo))
    /\ Forall (fun info => KeyUpdate.incData info = None) (keyUpdates rs)
    /\ uploads rs = []
    /\ (forall configToken,
          driftedOrSold tokens configToken = true
          <-> exists currentToken,
                find (sameKeyOrId configToken) tokens = Some currentToken
                /\ (JS.orZ (TokenConfig.used_quota configToken) 0
                    <> JS.orZ (RemoteToken.used_quota currentToken) 0
                    \/ TokenConfig.is_sold configToken = Some true)).
Proof.
  intros W respond w accountInfo tokens rs. subst rs.
  assert (Hkeys :
    map KeyUpdate.key
        (keyUpdates (requests (trace_of respond (driftSync accountInfo tokens) w)))
    = map (fun c => JS.orS (TokenConfig.key c) "")
          (filter (driftedOrSold tokens) (sellTokenConfigs accountInfo))
    /\ Forall (fun info => KeyUpdate.incData info = None)
              (keyUpdates (requests (trace_of respond (driftSync accountInfo tokens) w)))).
  { unfold driftSync, sellTokenConfigs.
    destruct (configuredTokens accountInfo) as [configs |].
    - apply syncSellTokens_keys.
    - split; [reflexivity | constructor]. }
  destruct Hkeys as [Hk Hi].
  split; [exact Hk |]. split; [exact Hi |]. split.
  - apply uploads_none. apply only_trace.
    apply only_driftSync; intros; discriminate.
  - intros configToken. unfold driftedOrSold.
    destruct (find (sameKeyOrId configToken) tokens) as [currentToken |].
    + split.
      * intros H. exists currentToken. split; [reflexivity |].
        apply orb_true_iff in H. destruct H as [H | H].
        -- left. apply negb_true_iff, Z.eqb_neq in H. congruence.
        -- right. destruct (TokenConfig.is_sold configToken) as [[|] |];
             simpl in H; congruence.
      * intros (t & Ht & Hcond). injection Ht as <-.
        apply orb_true_iff. destruct Hcond as [Hd | Hs].
        -- left. apply negb_true_iff, Z.eqb_neq. congruence.
        -- right. rewrite Hs. reflexivity.
    + split; [discriminate |]. intros (t & Ht & _). discriminate.
Qed.

(** Two sale entries for the remote token 8, whose used quota is 300: the
    entry recorded with 100 is synchronized, the one recorded with 300 is
    not. *)
Lemma driftSync_example :
  map KeyUpdate.key
      (keyUpdates
         (requests (trace_of (Scenario.agreeable None [])
                      (driftSync
                         (Scenario.account [Scenario.sale8 (Some 300);
                                            Scenario.sale8 (Some 100)])
                         [Scenario.token8 "出售_a"]) tt)))
  = ["sk-8"]
  /\ driftedOrSold [Scenario.token8 "出售_a"] (Scenario.sale8 (Some 300)) = false
  /\ driftedOrSold [Scenario.token8 "出售_a"] (Scenario.sale8 (Some 100)) = true.
Proof.
  destruct (driftSync_calls_for_drifted_or_sold (Scenario.agreeable None []) tt
              (Scenario.account [Scenario.sale8 (Some 300); Scenario.sale8 (Some 100)])
              [Scenario.token8 "出售_a"]) as [Hkeys [_ [_ Hiff]]].
  split; [exact Hkeys |]. split; [reflexivity |].
  apply Hiff. exists (Scenario.token8 "出售_a").
  split; [reflexivity |]. left. discriminate.
Defined.

(** C2 as stated, refuted: an entry that passes the sale filter, has key
    material and is marked sold, but matches no current remote token, gets
    no ledger call. *)
Lemma sold_unmatched_not_synchronized :
  isSellConfig Scenario.soldElsewhere = true
  /\ TokenConfig.is_sold Scenario.soldElsewhere = Some true
  /\ requests (trace_of (Scenario.agreeable None [])
                 (driftSync (Scenario.account [Scenario.soldElsewhere])
                            [Scenario.token7]) tt)
     = [].
Proof.
  split; [reflexivity |]. split; reflexivity.
Qed.

(** ** Sale tokens: recording and bulk upload *)

Lemma toUnits_orZ (q : option Z) :
  match JS.nonZero q with
  | Some z => toUnits z
  | None => 0%Q
  end = toUnits (JS.orZ q 0).
Proof.
  destruct q as [z |]; simpl; [| reflexivity].
  destruct (z =? 0); reflexivity.
Qed.

(** The records of the bulk upload, one for each pending sale whose first
    remote token of that name has key material. *)
Lemma keysToUpload_spec (accountInfo : option AccountInfo.t)
    (tokens : list RemoteToken.t) (pending : list Pending.t) (record : KeyRecord.t) :
  In record (keysToUpload accountInfo tokens pending)
  <-> exists p matchedToken key,
        In p pending
        /\ find (fun t => JS.eqS (RemoteToken.name t) (Some (Pending.name p))) tokens
           = Some matchedToken
        /\ JS.nonEmpty (RemoteToken.key matchedToken) = Some key
        /\ record
           = KeyRecord.Build key "anyrouter" false
               (toUnits (JS.orZ (Pending.remain_quota p) 0))
               (accountUsername accountInfo ++ "&" ++ Pending.name p)%string
               (accountId accountInfo).
Proof.
  induction pending as [| p rest IH]; cbn [keysToUpload].
  - split; [intros [] | intros (p & t & k & [] & _)].
  - rewrite toUnits_orZ.
    destruct (find (fun t => JS.eqS (RemoteToken.name t) (Some (Pending.name p)))
                   tokens) as [matchedToken |] eqn:Hfind.
    + destruct (JS.nonEmpty (RemoteToken.key matchedToken)) as [key |] eqn:Hkey.
      * split.
        -- intros [<- | Hin].
           ++ exists p, matchedToken, key. repeat split; auto. left. reflexivity.
           ++ apply IH in Hin. destruct Hin as (p' & t & k & Hin & H).
              exists p', t, k. split; [right; exact Hin | exact H].
        -- intros (p' & t & k & [<- | Hin] & Hf & Hk & ->).
           ++ left. rewrite Hfind in Hf. injection Hf as <-.
              rewrite Hkey in Hk. injection Hk as <-. reflexivity.
           ++ right. apply IH. exists p', t, k. repeat split; assumption.
      * rewrite IH. split.
        -- intros (p' & t & k & Hin & H). exists p', t, k.
           split; [right; exact Hin | exact H].
        -- intros (p' & t & k & [<- | Hin] & Hf & Hk & ->).
           ++ rewrite Hfind in Hf. injection Hf as <-. congruence.
           ++ exists p', t, k. repeat split; assumption.
    + rewrite IH. split.
      * intros (p' & t & k & Hin & H). exists p', t, k.
        split; [right; exact Hin | exact H].
      * intros (p' & t & k & [<- | Hin] & Hf & Hk & ->).
        -- congruence.
        -- exists p', t, k. repeat split; assumption.
Qed.

Section UploadFacts.
Variable W : Type.
Variable respond : W -> forall r : request, response r * W.

Lemma uploadPending_uploads (accountInfo : option AccountInfo.t)
    (tokens : list RemoteToken.t) (pending : list Pending.t) (w : W) :
  uploads (requests (trace_of respond (uploadPending accountInfo tokens pending) w))
  = match keysToUpload accountInfo tokens pending with
    | [] => []
    | keys => [keys]
    end.
Proof.
  unfold uploadPending. destruct pending as [| p rest]; [reflexivity |].
  destruct (keysToUpload accountInfo tokens (p :: rest)) as [| k ks];
    [reflexivity |].
  autorewrite with run. reflexivity.
Qed.

(** The bulk uploads of a whole reconciliation: the pending sales of the
    management pass, resolved against the token list fetched after it. *)
Lemma reconcile_uploads (accountInfo : option AccountInfo.t) (userInfo : UserInfo.t)
    (w : W) :
  uploads (requests (trace_of respond (reconcile accountInfo userInfo) w))
  = match keysToUpload accountInfo
            (result_of respond (fetchAndSupplement accountInfo)
               (world_of respond (managePass accountInfo) w))
            (result_of respond (managePass accountInfo) w) with
    | [] => []
    | keys => [keys]
    end.
Proof.
  unfold reconcile. autorewrite with run. rewrite !uploads_app.
  rewrite uploadPending_uploads.
  rewrite (@uploads_none (requests (trace_of respond (managePass accountInfo) w))).
  2:{ apply only_trace. apply only_managePass; intros; discriminate. }
  rewrite (@uploads_none (requests (trace_of respond (fetchAndSupplement accountInfo) _))).
  2:{ apply only_trace. apply only_fetchAndSupplement; intros; discriminate. }
  rewrite (@uploads_none (requests (trace_of respond (driftSync accountInfo _) _))).
  2:{ apply only_trace. apply only_driftSync; intros; discriminate. }
  cbn [app uploads flat_map requests map]. rewrite !app_nil_r. reflexivity.
Qed.

Lemma manageToken_create (tokenConfig : TokenConfig.t) (pending : list Pending.t)
    (w : W) :
  JS.nonZero (TokenConfig.id tokenConfig) = None ->
  let created :=
    fst (respond w
           (PostToken
              (createTokenBody
                 (CreateConfig.Build
                    (Some (JS.truthyB (TokenConfig.unlimited_quota tokenConfig)))
                    (TokenConfig.remain_quota tokenConfig)
                    (TokenConfig.name tokenConfig))))) in
  result_of respond (manageToken tokenConfig pending) w
  = if accepted created
    then match JS.nonEmpty (TokenConfig.name tokenConfig) with
         | Some name =>
             if JS.startsWith sellPrefix name
             then pending ++ [Pending.Build name (TokenConfig.remain_quota tokenConfig)]
             else pending
         | None => pending
         end
    else pending.
Proof.
  intros Hid created. unfold manageToken. rewrite Hid.
  unfold createToken. autorewrite with run. fold created.
  destruct (accepted created);
    destruct (JS.nonEmpty (TokenConfig.name tokenConfig)) as [name |]; simpl;
    try reflexivity.
  - destruct (JS.startsWith sellPrefix name); reflexivity.
Qed.
End UploadFacts.

(** C3, as the code has it.  A desired entry without identifier whose
    creation is accepted is recorded as a pending sale exactly when its
    name starts with the prefix of the source, ["出售_"]; a refused
    creation records nothing.  A reconciliation makes at most one
    [addKeys] call, none when no record is built, and its records are built
    from the pending sales of the management pass and the token list
    fetched after it: one for each pending sale whose first remote token of
    that name has key material, carrying that key, the type tag
    ["anyrouter"], [is_sold] false, the intended quota divided by 500000,
    the source label [username&name] and the account id.  A pending sale
    without such a token, or whose token has no key material, contributes
    no record. *)
Theorem sale_tokens_recorded_and_uploaded :
  forall (W : Type) (respond : W -> forall r : request, response r * W) (w v : W)
         (accountInfo : option AccountInfo.t) (userInfo : UserInfo.t)
         (tokenConfig : TokenConfig.t) (pendingBefore : list Pending.t),
    JS.nonZero (TokenConfig.id tokenConfig) = None ->
    let created :=
      fst (respond w
             (PostToken
                (createTokenBody
                   (CreateConfig.Build
                      (Some (JS.truthyB (TokenConfig.unlimited_quota tokenConfig)))
                      (TokenConfig.remain_quota tokenConfig)
                      (TokenConfig.name tokenConfig))))) in
    let pending := result_of respond (managePass accountInfo) v in
    let tokens :=
      result_of respond (fetchAndSupplement accountInfo)
        (world_of respond (managePass accountInfo) v) in
    result_of respond (manageToken tokenConfig pendingBefore) w
    = (if accepted created
       then match JS.nonEmpty (TokenConfig.name tokenConfig) with
            | Some name =>
                if JS.startsWith "出售_" name
                then pendingBefore
                       ++ [Pending.Build name (TokenConfig.remain_quota tokenConfig)]
                else pendingBefore
            | None => pendingBefore
            end
       else pendingBefore)
    /\ uploads (requests (trace_of respond (reconcile accountInfo userInfo) v))
       = match keysToUpload accountInfo tokens pending with
         | [] => []
         | keys => [keys]
         end
    /\ (forall record,
          In record (keysToUpload accountInfo tokens pending)
          <-> exists p matchedToken key,
                In p pending
                /\ find (fun t => JS.eqS (RemoteToken.name t) (Some (Pending.name p)))
                        tokens
                   = Some matchedToken
                /\ JS.nonEmpty (RemoteToken.key matchedToken) = Some key
                /\ record
                   = KeyRecord.Build key "anyrouter" false
                       (toUnits (JS.orZ (Pending.remain_quota p) 0))
                       (accountUsername accountInfo ++ "&" ++ Pending.name p)%string
                       (accountId accountInfo)).
Proof.
  intros W respond w v accountInfo userInfo tokenConfig pendingBefore Hid
         created pending tokens.
  split; [| split].
  - apply manageToken_create, Hid.
  - apply reconcile_uploads.
  - intros record. apply keysToUpload_spec.
Qed.

(** A sale token created and uploaded: the entry named ["出售_a"] on a
    console that lists the token 8 under that name. *)
Lemma sale_token_example :
  result_of (Scenario.agreeable None [Scenario.token8 "出售_a"])
            (manageToken (Scenario.toCreate "出售_a") []) tt
  = [Pending.Build "出售_a" (Some 1000000)]
  /\ uploads (requests (trace_of (Scenario.agreeable None [Scenario.token8 "出售_a"])
                          (reconcile (Scenario.account [Scenario.toCreate "出售_a"])
                                     (Scenario.aliceInfo 0 (Some 1))) tt))
     = [[KeyRecord.Build "sk-8" "anyrouter" false 2%Q "alice&出售_a" (Some "acc-1")]].
Proof.
  destruct (@sale_tokens_recorded_and_uploaded unit
              (Scenario.agreeable None [Scenario.token8 "出售_a"]) tt tt
              (Scenario.account [Scenario.toCreate "出售_a"])
              (Scenario.aliceInfo 0 (Some 1))
              (Scenario.toCreate "出售_a") [] eq_refl)
    as [Hrecorded [Huploaded _]].
  split; [exact Hrecorded | exact Huploaded].
Defined.

(** C3 as stated, refuted: an entry named ["sold_a"] is created, the
    console lists a token of that name with key material, and nothing is
    recorded or uploaded. *)
Lemma sold_prefix_not_recorded :
  JS.startsWith "sold_" "sold_a" = true
  /\ result_of (Scenario.agreeable None [Scenario.token8 "sold_a"])
               (createToken (CreateConfig.Build (Some false) (Some 1000000)
                                                (Some "sold_a"))) tt
     = true
  /\ result_of (Scenario.agreeable None [Scenario.token8 "sold_a"])
               (manageToken (Scenario.toCreate "sold_a") []) tt
     = []
  /\ requests (trace_of (Scenario.agreeable None [Scenario.token8 "sold_a"])
                 (reconcile (Scenario.account [Scenario.toCreate "sold_a"])
                            (Scenario.aliceInfo 0 (Some 1))) tt)
     = [PostToken (CreateBody.Build "sold_a" (-1) false "" "" "default" None
                     (Some 1000000));
        GetTokens]
  /\ uploads
       (requests (trace_of (Scenario.agreeable None [Scenario.token8 "sold_a"])
                    (reconcile (Scenario.account [Scenario.toCreate "sold_a"])
                               (Scenario.aliceInfo 0 (Some 1))) tt))
     = [].
Proof.
  split; [reflexivity |]. split; [reflexivity |]. split; [reflexivity |].
  split; reflexivity.
Qed.

(** ** The supplement pass applies each entry once *)

Lemma assignFirst_ids (p : RemoteToken.t -> bool) (f : RemoteToken.t -> RemoteToken.t)
    (tokens : list RemoteToken.t) :
  (forall t, RemoteToken.id (f t) = RemoteToken.id t) ->
  map RemoteToken.id (assignFirst p f tokens) = map RemoteToken.id tokens.
Proof.
  intros Hf. induction tokens as [| t rest IH]; [reflexivity |].
  simpl. destruct (p t); simpl.
  - rewrite Hf. reflexivity.
  - rewrite IH. reflexivity.
Qed.

Lemma find_sameId_ids (c : TokenConfig.t) (ts ts' : list RemoteToken.t) :
  map RemoteToken.id ts = map RemoteToken.id ts' ->
  option_map RemoteToken.id (find (sameId c) ts)
  = option_map RemoteToken.id (find (sameId c) ts').
Proof.
  revert ts'. induction ts as [| t rest IH]; intros [| t' rest'] H;
    try discriminate; [reflexivity |].
  simpl in H. injection H as Hid Hrest. simpl.
  unfold sameId at 1 3. rewrite Hid.
  destruct (JS.eqZ (Some (RemoteToken.id t')) (TokenConfig.id c)).
  - simpl. f_equal. exact Hid.
  - apply IH, Hrest.
Qed.

Lemma find_assignFirst_other (p q : RemoteToken.t -> bool)
    (f : RemoteToken.t -> RemoteToken.t) (tokens : list RemoteToken.t) :
  (forall t, p t = true -> q t = false /\ q (f t) = false) ->
  find q (assignFirst p f tokens) = find q tokens.
Proof.
  intros H. induction tokens as [| t rest IH]; [reflexivity |].
  simpl. destruct (p t) eqn:Hp; simpl.
  - destruct (H t Hp) as [-> ->]. reflexivity.
  - rewrite IH. reflexivity.
Qed.

Lemma sameId_other (c c' : TokenConfig.t) (t : RemoteToken.t) :
  (forall i, TokenConfig.id c = Some i -> TokenConfig.id c' <> Some i) ->
  sameId c t = true -> sameId c' t = false.
Proof.
  unfold sameId. intros Hdiff Hc.
  destruct (TokenConfig.id c) as [i |]; simpl in Hc; [| discriminate].
  apply Z.eqb_eq in Hc. subst i.
  specialize (Hdiff _ eq_refl).
  destruct (TokenConfig.id c') as [j |]; simpl; [| reflexivity].
  apply Z.eqb_neq. congruence.
Qed.

Lemma sameId_found (c : TokenConfig.t) (tokens : list RemoteToken.t)
    (t : RemoteToken.t) :
  find (sameId c) tokens = Some t -> TokenConfig.id c = Some (RemoteToken.id t).
Proof.
  intros H. apply find_some in H. destruct H as [_ H].
  unfold sameId in H. destruct (TokenConfig.id c) as [i |]; simpl in H;
    [| discriminate].
  apply Z.eqb_eq in H. congruence.
Qed.

Section SupplementFacts.
Variable W : Type.
Variable respond : W -> forall r : request, response r * W.

Lemma mirrorSupplement_no_update (c : TokenConfig.t) (updateResult : RemoteToken.t)
    (w : W) :
  tokenUpdates (requests (trace_of respond (mirrorSupplement c updateResult) w)) = [].
Proof.
  apply tokenUpdates_none. apply only_trace.
  apply only_mirrorSupplement; intros; discriminate.
Qed.

(** One iteration sends the update its entry asks for, and nothing else to
    the token endpoint. *)
Lemma supplementToken_updates (c : TokenConfig.t) (tokens : list RemoteToken.t)
    (w : W) :
  tokenUpdates (requests (trace_of respond (supplementToken c tokens) w))
  = supplementOf tokens c.
Proof.
  unfold supplementToken, supplementOf.
  destruct (find (sameId c) tokens) as [matchedToken |]; [| reflexivity].
  unfold updateToken. autorewrite with run.
  rewrite !tokenUpdates_app.
  match goal with
  | |- context [match ?o with Some _ => _ | None => _ end] => destruct o
  end.
  - autorewrite with run. rewrite tokenUpdates_app, mirrorSupplement_no_update.
    reflexivity.
  - reflexivity.
Qed.

(** What one iteration leaves in the local token list. *)
Lemma supplementToken_result (c : TokenConfig.t) (tokens : list RemoteToken.t)
    (w : W) :
  result_of respond (supplementToken c tokens) w = tokens
  \/ exists q,
       result_of respond (supplementToken c tokens) w
       = assignFirst (sameId c) (fun t => RemoteToken.with_remain_quota t q) tokens.
Proof.
  unfold supplementToken.
  destruct (find (sameId c) tokens) as [matchedToken |]; [| left; reflexivity].
  unfold updateToken. autorewrite with run.
  match goal with
  | |- context [match ?o with Some _ => _ | None => _ end] => destruct o
  end.
  - right. autorewrite with run. eexists. reflexivity.
  - left. reflexivity.
Qed.

Lemma supplementToken_ids (c : TokenConfig.t) (tokens : list RemoteToken.t) (w : W) :
  map RemoteToken.id (result_of respond (supplementToken c tokens) w)
  = map RemoteToken.id tokens.
Proof.
  destruct (supplementToken_result c tokens w) as [-> | [q ->]]; [reflexivity |].
  apply assignFirst_ids. reflexivity.
Qed.

Lemma supplementToken_other (c c' : TokenConfig.t) (tokens : list RemoteToken.t)
    (w : W) :
  (forall i, TokenConfig.id c = Some i -> TokenConfig.id c' <> Some i) ->
  find (sameId c') (result_of respond (supplementToken c tokens) w)
  = find (sameId c') tokens.
Proof.
  intros Hdiff.
  destruct (supplementToken_result c tokens w) as [-> | [q ->]]; [reflexivity |].
  apply find_assignFirst_other. intros t Ht. split.
  - eapply sameId_other; eassumption.
  - apply (sameId_other c c' (RemoteToken.with_remain_quota t q) Hdiff).
    exact Ht.
Qed.

(** The tokens updated by the loop, in order: the matched token of each
    entry, once. *)
Lemma supplementTokens_ids (configs : list TokenConfig.t) :
  forall (tokens0 tokens : list RemoteToken.t) (w : W),
    map RemoteToken.id tokens = map RemoteToken.id tokens0 ->
    map RemoteToken.id
        (tokenUpdates (requests (trace_of respond (supplementTokens configs tokens) w)))
    = flat_map (fun c => map RemoteToken.id (supplementOf tokens0 c)) configs.
Proof.
  induction configs as [| c rest IH]; intros tokens0 tokens w Hids; [reflexivity |].
  cbn [supplementTokens flat_map]. autorewrite with run.
  rewrite tokenUpdates_app, map_app, supplementToken_updates.
  rewrite (IH tokens0).
  2:{ rewrite supplementToken_ids. exact Hids. }
  f_equal. unfold supplementOf.
  pose proof (find_sameId_ids c _ _ Hids) as Hfind.
  destruct (find (sameId c) tokens) as [t |], (find (sameId c) tokens0) as [t0 |];
    simpl in *; congruence.
Qed.

(** With pairwise distinct identifiers among the entries, each update is
    computed from the token as it was fetched. *)
Lemma supplementTokens_updates (configs : list TokenConfig.t) :
  NoDup (configIds configs) ->
  forall (tokens0 tokens : list RemoteToken.t) (w : W),
    (forall c, In c configs -> find (sameId c) tokens = find (sameId c) tokens0) ->
    tokenUpdates (requests (trace_of respond (supplementTokens configs tokens) w))
    = flat_map (supplementOf tokens0) configs.
Proof.
  induction configs as [| c rest IH]; intros Hnodup tokens0 tokens w Hsame;
    [reflexivity |].
  cbn [supplementTokens flat_map]. autorewrite with run.
  rewrite tokenUpdates_app, supplementToken_updates.
  unfold configIds in Hnodup. cbn [flat_map] in Hnodup.
  fold (configIds rest) in Hnodup.
  assert (Hrest : NoDup (configIds rest)).
  { destruct (TokenConfig.id c); [inversion Hnodup; assumption | exact Hnodup]. }
  assert (Hdiff : forall c', In c' rest ->
            forall i, TokenConfig.id c = Some i -> TokenConfig.id c' <> Some i).
  { intros c' Hin i Hi Hi'. rewrite Hi in Hnodup. inversion Hnodup as [| ? ? Hnotin _].
    apply Hnotin. unfold configIds. apply in_flat_map.
    exists c'. split; [exact Hin |]. rewrite Hi'. left. reflexivity. }
  f_equal.
  - unfold supplementOf. rewrite (Hsame c (or_introl eq_refl)). reflexivity.
  - apply IH; [exact Hrest |].
    intros c' Hin. rewrite supplementToken_other by (apply Hdiff, Hin).
    apply Hsame. right. exact Hin.
Qed.
End SupplementFacts.

Lemma supplementOf_ids_in (tokens : list RemoteToken.t) (configs : list TokenConfig.t)
    (i : Z) :
  In i (flat_map (fun c => map RemoteToken.id (supplementOf tokens c)) configs) ->
  In i (configIds configs).
Proof.
  unfold configIds. rewrite !in_flat_map.
  intros (c & Hin & Hi). exists c. split; [exact Hin |].
  unfold supplementOf in Hi.
  destruct (find (sameId c) tokens) as [t |] eqn:Hfind; [| destruct Hi].
  apply sameId_found in Hfind. rewrite Hfind.
  simpl in Hi. exact Hi.
Qed.

Lemma supplementOf_ids_nodup (tokens : list RemoteToken.t)
    (configs : list TokenConfig.t) :
  NoDup (configIds configs) ->
  NoDup (flat_map (fun c => map RemoteToken.id (supplementOf tokens c)) configs).
Proof.
  induction configs as [| c rest IH]; intros Hnodup; [constructor |].
  unfold configIds in Hnodup. cbn [flat_map] in *. fold (configIds rest) in Hnodup.
  unfold supplementOf at 1.
  destruct (find (sameId c) tokens) as [t |] eqn:Hfind.
  - apply sameId_found in Hfind. rewrite Hfind in Hnodup.
    inversion Hnodup as [| ? ? Hnotin Hrest]; subst.
    simpl. constructor.
    + intros Hin. apply Hnotin. eapply supplementOf_ids_in, Hin.
    + apply IH, Hrest.
  - simpl. apply IH.
    destruct (TokenConfig.id c); [inversion Hnodup; assumption | exact Hnodup].
Qed.

Lemma userInfoOf_tokens (fetchedSelf : option (Api.body UserData.t))
    (userInfo : UserInfo.t) :
  userInfoOf fetchedSelf = Some userInfo -> UserInfo.tokens userInfo = None.
Proof.
  unfold userInfoOf. destruct fetchedSelf as [data |]; [| discriminate].
  destruct (Api.success data); [| discriminate].
  destruct (Api.data data); [| discriminate].
  intros H. injection H as <-. reflexivity.
Qed.

Lemma attachTokens_cleared (userInfo : UserInfo.t) (tokens : list RemoteToken.t) :
  UserInfo.tokens userInfo = None ->
  supplementsCleared (Success (Some (attachTokens userInfo tokens))).
Proof.
  intros Hnone. destruct tokens as [| t rest]; simpl.
  - rewrite Hnone. exact I.
  - constructor; [reflexivity |].
    apply Forall_forall. intros x Hx. apply in_map_iff in Hx.
    destruct Hx as (t' & <- & _). reflexivity.
Qed.

Section ClearedFacts.
Variable W : Type.
Variable respond : W -> forall r : request, response r * W.

Lemma transferReward_tokens (userInfo : UserInfo.t) (w : W) :
  UserInfo.tokens (result_of respond (transferReward userInfo) w)
  = UserInfo.tokens userInfo.
Proof.
  unfold transferReward.
  match goal with |- context [if ?b then _ else _] => destruct b end.
  - autorewrite with run. reflexivity.
  - reflexivity.
Qed.

Lemma signIn_cleared (accountInfo : option AccountInfo.t) (w : W) :
  supplementsCleared (result_of respond (signIn accountInfo) w).
Proof.
  unfold signIn.
  rewrite result_of_bind, result_of_call, world_of_call.
  destruct (respond w PostSignIn) as [[error | status data] w1]; cbn [fst snd].
  - destruct (negb (String.eqb error "")); autorewrite with run; exact I.
  - destruct (status =? 200); [| autorewrite with run; exact I].
    destruct (signInAccepted data); [| autorewrite with run; exact I].
    rewrite result_of_bind, result_of_call, world_of_call.
    destruct (respond w1 GetUserSelf) as [fetchedSelf w2]; cbn [fst snd].
    destruct (userInfoOf fetchedSelf) as [userInfo |] eqn:Huser;
      [| autorewrite with run; exact I].
    apply userInfoOf_tokens in Huser.
    destruct (JS.eqZ (UserInfo.status userInfo) (Some 2)).
    + autorewrite with run. simpl. rewrite Huser. exact I.
    + unfold afterSnapshot. autorewrite with run.
      destruct (reconcile_result respond accountInfo
                  (result_of respond (transferReward userInfo) w2)
                  (world_of respond (transferReward userInfo) w2))
        as [tokens ->].
      apply attachTokens_cleared. rewrite transferReward_tokens. exact Huser.
Qed.
End ClearedFacts.

(** C8, as the code has it.  In one run of the supplement pass every
    desired entry with a positive supplement is applied at most once: the
    update requests are, in order, one for the matched token of each such
    entry, so there are never more updates than entries; when the entries
    name pairwise distinct identifiers no token is updated twice and each
    update carries the fetched remaining quota plus the entry's delta,
    added once.  The desired entries are values the pass only reads.  Every
    entry of the token list attached to the result of [signIn] has a
    supplement of 0. *)
Theorem supplement_applied_once_per_entry :
  forall (W : Type) (respond : W -> forall r : request, response r * W) (w v : W)
         (accountInfo : option AccountInfo.t) (tokens : list RemoteToken.t),
    let updates :=
      tokenUpdates (requests (trace_of respond (supplementPass accountInfo tokens) w)) in
    map RemoteToken.id updates
    = flat_map (fun c => map RemoteToken.id (supplementOf tokens c))
               (tokensToSupplement accountInfo)
    /\ (length updates <= length (tokensToSupplement accountInfo))%nat
    /\ (NoDup (configIds (tokensToSupplement accountInfo)) ->
        updates = flat_map (supplementOf tokens) (tokensToSupplement accountInfo)
        /\ NoDup (map RemoteToken.id updates))
    /\ (forall userInfo' finalTokens,
          result_of respond (signIn accountInfo) v = Success (Some userInfo') ->
          UserInfo.tokens userInfo' = Some finalTokens ->
          Forall (fun t => TokenInfo.supplement_quota t = 0) finalTokens).
Proof.
  intros W respond w v accountInfo tokens updates.
  assert (Hids :
    map RemoteToken.id updates
    = flat_map (fun c => map RemoteToken.id (supplementOf tokens c))
               (tokensToSupplement accountInfo)).
  { subst updates. unfold supplementPass, tokensToSupplement.
    destruct (configuredTokens accountInfo) as [configs |]; [| reflexivity].
    apply supplementTokens_ids. reflexivity. }
  split; [exact Hids |]. split; [| split].
  - rewrite <- (length_map RemoteToken.id), Hids. clear Hids.
    induction (tokensToSupplement accountInfo) as [| c rest IH]; [constructor |].
    cbn [flat_map]. rewrite length_app. cbn [length].
    unfold supplementOf at 1.
    destruct (find (sameId c) tokens); cbn [map length]; lia.
  - intros Hnodup. split.
    + subst updates. unfold supplementPass, tokensToSupplement in *.
      destruct (configuredTokens accountInfo) as [configs |]; [| reflexivity].
      apply supplementTokens_updates; [exact Hnodup | reflexivity].
    + rewrite Hids. apply supplementOf_ids_nodup, Hnodup.
  - intros userInfo' finalTokens Hres Htokens.
    pose proof (signIn_cleared respond accountInfo v) as Hcleared.
    rewrite Hres in Hcleared. simpl in Hcleared. rewrite Htokens in Hcleared.
    exact Hcleared.
Qed.

(** The supplement of 50000 for the token 7, in a whole run of [signIn]:
    one update with 150000, and a final list without supplement. *)
Lemma supplement_once_example :
  tokenUpdates
    (requests (trace_of (Scenario.agreeable (Scenario.alice None (Some 1))
                           [Scenario.token7])
                 (supplementPass (Scenario.account [Scenario.supplement7 (Some "sk-7")])
                                 [Scenario.token7]) tt))
  = [RemoteToken.with_remain_quota Scenario.token7 (Some 150000)]
  /\ Forall (fun t => TokenInfo.supplement_quota t = 0)
            [TokenInfo.Build 7 None None None None (Some 150000) 0].
Proof.
  destruct (@supplement_applied_once_per_entry unit
              (Scenario.agreeable (Scenario.alice None (Some 1)) [Scenario.token7])
              tt tt
              (Scenario.account [Scenario.supplement7 (Some "sk-7")])
              [Scenario.token7]) as [_ [_ [Hexact Hfinal]]].
  split.
  - apply Hexact. repeat constructor. intros [].
  - eapply Hfinal; reflexivity.
Defined.

(** C8 as stated, refuted: a desired list that names the token 7 twice,
    each time with a supplement of 50000.  Both entries are applied, the
    second on the quota the first one left: the token receives the delta
    twice in one pass. *)
Lemma supplement_added_twice_for_repeated_entry :
  tokenUpdates
    (requests (trace_of (Scenario.agreeable None [])
                 (supplementPass
                    (Scenario.account [Scenario.supplement7 None;
                                       Scenario.supplement7 None])
                    [Scenario.token7]) tt))
  = [RemoteToken.with_remain_quota Scenario.token7 (Some 150000);
     RemoteToken.with_remain_quota Scenario.token7 (Some 200000)]
  /\ result_of (Scenario.agreeable None [])
       (supplementPass
          (Scenario.account [Scenario.supplement7 None; Scenario.supplement7 None])
          [Scenario.token7]) tt
     = [RemoteToken.with_remain_quota Scenario.token7 (Some 200000)].
Proof.
  split; reflexivity.
Qed.

(** ** Further properties of [signIn] *)

Lemma only_transferReward (P : request -> Prop) (userInfo : UserInfo.t) :
  (forall q, P (PostAffTransfer q)) -> only P (transferReward userInfo).
Proof.
  intros H. unfold transferReward.
  match goal with |- only _ (if ?b then _ else _) => destruct b end;
    [| constructor].
  apply only_bind; [apply only_call, H | intros; constructor].
Qed.

Lemma transferReward_identity (W : Type)
    (respond : W -> forall r : request, response r * W)
    (userInfo : UserInfo.t) (w : W) :
  let u := result_of respond (transferReward userInfo) w in
  UserInfo.username u = UserInfo.username userInfo
  /\ UserInfo.email u = UserInfo.email userInfo
  /\ UserInfo.usedQuota u = UserInfo.usedQuota userInfo
  /\ UserInfo.affCode u = UserInfo.affCode userInfo
  /\ UserInfo.status u = UserInfo.status userInfo.
Proof.
  unfold transferReward.
  match goal with |- context [if ?b then _ else _] => destruct b end.
  - autorewrite with run. simpl. repeat split; reflexivity.
  - simpl. repeat split; reflexivity.
Qed.

Lemma attachTokens_identity (userInfo : UserInfo.t) (tokens : list RemoteToken.t) :
  let u := attachTokens userInfo tokens in
  UserInfo.username u = UserInfo.username userInfo
  /\ UserInfo.email u = UserInfo.email userInfo
  /\ UserInfo.usedQuota u = UserInfo.usedQuota userInfo
  /\ UserInfo.affCode u = UserInfo.affCode userInfo
  /\ UserInfo.status u = UserInfo.status userInfo.
Proof. destruct tokens; simpl; repeat split; reflexivity. Qed.

(** X1.  Every run of [signIn] releases the browser context exactly once,
    and the release is its last request, whatever the console and the
    ledger answer. *)
Theorem signIn_closes_context_once_and_last :
  forall (W : Type) (respond : W -> forall r : request, response r * W) (w : W)
         (accountInfo : option AccountInfo.t),
    exists before,
      requests (trace_of respond (signIn accountInfo) w) = before ++ [ContextClose]
      /\ ~ In ContextClose before.
Proof.
  intros W respond w accountInfo. unfold signIn.
  rewrite trace_of_bind, trace_of_call, result_of_call, world_of_call.
  destruct (respond w PostSignIn) as [[error | status data] w1]; cbn [fst snd].
  - exists [PostSignIn].
    destruct (negb (String.eqb error "")); autorewrite with run;
      (split; [reflexivity | intros [H | []]; discriminate H]).
  - destruct (status =? 200).
    2:{ exists [PostSignIn]. autorewrite with run.
        split; [reflexivity | intros [H | []]; discriminate H]. }
    destruct (signInAccepted data).
    2:{ exists [PostSignIn]. autorewrite with run.
        split; [reflexivity | intros [H | []]; discriminate H]. }
    rewrite trace_of_bind, trace_of_call, result_of_call, world_of_call.
    destruct (respond w1 GetUserSelf) as [fetchedSelf w2]; cbn [fst snd].
    destruct (userInfoOf fetchedSelf) as [userInfo |].
    2:{ exists [PostSignIn; GetUserSelf]. autorewrite with run.
        split; [reflexivity | intros [H | [H | []]]; discriminate H]. }
    destruct (JS.eqZ (UserInfo.status userInfo) (Some 2)).
    { exists [PostSignIn; GetUserSelf]. autorewrite with run.
      split; [reflexivity | intros [H | [H | []]]; discriminate H]. }
    unfold afterSnapshot. autorewrite with run.
    set (t1 := requests (trace_of respond (transferReward userInfo) w2)).
    set (t2 := requests (trace_of respond (reconcile accountInfo _) _)).
    exists ([PostSignIn; GetUserSelf] ++ t1 ++ t2).
    split.
    + cbn [requests map app]. rewrite <- !app_assoc. reflexivity.
    + intros Hin. apply in_app_or in Hin. destruct Hin as [Hin | Hin].
      { destruct Hin as [H | [H | []]]; discriminate H. }
      apply in_app_or in Hin. destruct Hin as [Hin | Hin].
      * subst t1.
        assert (H : Forall (fun r => r <> ContextClose)
                      (requests (trace_of respond (transferReward userInfo) w2))).
        { apply only_trace. apply only_transferReward. intros; discriminate. }
        rewrite Forall_forall in H. exact (H _ Hin eq_refl).
      * subst t2.
        match type of Hin with
        | In _ (requests (trace_of _ (reconcile _ ?u) ?v)) =>
            assert (H : Forall (fun r => r <> ContextClose)
                          (requests (trace_of respond (reconcile accountInfo u) v)))
        end.
        { apply only_trace. apply only_reconcile; intros; discriminate. }
        rewrite Forall_forall in H. exact (H _ Hin eq_refl).
Qed.


(** X3.  When the sign-in request fails in transport ([{error}]), [signIn]
    returns the failure with that message and stops after releasing the
    context; when the message is the empty string the error reads
    ["HTTP undefined"]. *)
Theorem signIn_transport_failure :
  forall (W : Type) (respond : W -> forall r : request, response r * W) (w w1 : W)
         (accountInfo : option AccountInfo.t) (error : string),
    respond w PostSignIn = (FetchError error, w1) ->
    result_of respond (signIn accountInfo) w
    = Failure (if String.eqb error "" then "HTTP undefined" else error)
    /\ requests (trace_of respond (signIn accountInfo) w) = [PostSignIn; ContextClose].
Proof.
  intros W respond w w1 accountInfo error Hsign. unfold signIn.
  rewrite result_of_bind, trace_of_bind, trace_of_call, result_of_call,
    world_of_call, Hsign.
  cbn [fst snd]. destruct (String.eqb error ""); cbn [negb];
    autorewrite with run; split; reflexivity.
Qed.

(** X4.  When sign-in is accepted but no snapshot is obtained (the fetch
    throws, the body is not a success, or it has no payload), [signIn]
    still reports success, with a null [userInfo], and does no reward or
    token work. *)
Theorem signIn_without_snapshot :
  forall (W : Type) (respond : W -> forall r : request, response r * W) (w w1 w2 : W)
         (accountInfo : option AccountInfo.t) (data : SignInBody.t)
         (fetchedSelf : option (Api.body UserData.t)),
    respond w PostSignIn = (FetchResponse 200 data, w1) ->
    signInAccepted data = true ->
    respond w1 GetUserSelf = (fetchedSelf, w2) ->
    (fetchedSelf = None
     \/ exists body, fetchedSelf = Some body
                     /\ (Api.success body = false \/ Api.data body = None)) ->
    result_of respond (signIn accountInfo) w = Success None
    /\ requests (trace_of respond (signIn accountInfo) w)
       = [PostSignIn; GetUserSelf; ContextClose].
Proof.
  intros W respond w w1 w2 accountInfo data fetchedSelf Hsign Hok Hself Hnone.
  assert (Huser : userInfoOf fetchedSelf = None).
  { destruct Hnone as [-> | (body & -> & [Hs | Hd])]; simpl.
    - reflexivity.
    - rewrite Hs. reflexivity.
    - rewrite Hd. destruct (Api.success body); reflexivity. }
  unfold signIn.
  rewrite result_of_bind, trace_of_bind, trace_of_call, result_of_call,
    world_of_call, Hsign.
  cbn [fst snd]. rewrite Z.eqb_refl, Hok.
  rewrite result_of_bind, trace_of_bind, trace_of_call, result_of_call,
    world_of_call, Hself.
  cbn [fst snd]. rewrite Huser. autorewrite with run. split; reflexivity.
Qed.

(** X5.  For a snapshot that is not banned, the [userInfo] returned keeps
    the fetched username, email, used quota, affiliate code and status:
    the reward step and the reconciliation only touch quota, reward and
    token list. *)
Theorem signIn_keeps_identity_fields :
  forall (W : Type) (respond : W -> forall r : request, response r * W) (w w1 w2 : W)
         (accountInfo : option AccountInfo.t) (data : SignInBody.t)
         (fetchedSelf : option (Api.body UserData.t)) (userInfo : UserInfo.t),
    respond w PostSignIn = (FetchResponse 200 data, w1) ->
    signInAccepted data = true ->
    respond w1 GetUserSelf = (fetchedSelf, w2) ->
    userInfoOf fetchedSelf = Some userInfo ->
    UserInfo.status userInfo <> Some 2 ->
    exists userInfo',
      result_of respond (signIn accountInfo) w = Success (Some userInfo')
      /\ UserInfo.username userInfo' = UserInfo.username userInfo
      /\ UserInfo.email userInfo' = UserInfo.email userInfo
      /\ UserInfo.usedQuota userInfo' = UserInfo.usedQuota userInfo
      /\ UserInfo.affCode userInfo' = UserInfo.affCode userInfo
      /\ UserInfo.status userInfo' = UserInfo.status userInfo.
Proof.
  intros W respond w w1 w2 accountInfo data fetchedSelf userInfo
         Hsign Hok Hself Huser Hactive.
  destruct (signIn_active respond accountInfo _ Hsign Hok Hself Huser Hactive)
    as [Hres _].
  rewrite Hres. unfold afterSnapshot. autorewrite with run.
  destruct (reconcile_result respond accountInfo
              (result_of respond (transferReward userInfo) w2)
              (world_of respond (transferReward userInfo) w2)) as [tokens ->].
  eexists. split; [reflexivity |].
  destruct (attachTokens_identity (result_of respond (transferReward userInfo) w2)
              tokens) as (H1 & H2 & H3 & H4 & H5).
  destruct (transferReward_identity respond userInfo w2) as (G1 & G2 & G3 & G4 & G5).
  rewrite H1, H2, H3, H4, H5. repeat split; assumption.
Qed.

(** ** Further properties of the reconciliation *)

Section ReconcileMore.
Variable W : Type.
Variable respond : W -> forall r : request, response r * W.

Lemma manageToken_requests (c : TokenConfig.t) (pending : list Pending.t) (w : W) :
  requests (trace_of respond (manageToken c pending) w) = managePlan c.
Proof.
  unfold manageToken, managePlan.
  destruct (JS.nonZero (TokenConfig.id c)) as [tokenId |].
  - destruct (JS.truthyB (TokenConfig.is_deleted c)); [| reflexivity].
    unfold deleteToken. autorewrite with run. reflexivity.
  - unfold createToken. autorewrite with run.
    destruct (JS.nonEmpty (TokenConfig.name c)) as [name |]; [| reflexivity].
    match goal with |- context [if ?b then _ else _] => destruct b end;
      reflexivity.
Qed.

Lemma manageTokens_requests (configs : list TokenConfig.t) :
  forall (pending : list Pending.t) (w : W),
    requests (trace_of respond (manageTokens configs pending) w)
    = flat_map managePlan configs.
Proof.
  induction configs as [| c rest IH]; intros pending w; [reflexivity |].
  cbn [manageTokens flat_map]. autorewrite with run.
  rewrite manageToken_requests, IH. reflexivity.
Qed.

End ReconcileMore.

(** X6.  The management pass issues the same requests whatever the answers
    are: in the order of the desired list, one delete for each entry with a
    truthy id and a truthy deletion flag, one create for each entry without
    a truthy id (an id of 0 counts as none), and nothing for an entry with
    an id that is not marked deleted.  A refused or failed request does not
    stop the pass. *)
Theorem managePass_requests_do_not_depend_on_answers :
  forall (W : Type) (respond : W -> forall r : request, response r * W) (w : W)
         (accountInfo : option AccountInfo.t),
    requests (trace_of respond (managePass accountInfo) w)
    = flat_map managePlan
        (match configuredTokens accountInfo with
         | Some configs => configs
         | None => []
         end)
    /\ (forall c tokenId,
          managePlan c = [DeleteToken tokenId]
          <-> (TokenConfig.id c = Some tokenId /\ tokenId <> 0
               /\ TokenConfig.is_deleted c = Some true))
    /\ (forall c,
          (exists body, managePlan c = [PostToken body])
          <-> (TokenConfig.id c = None \/ TokenConfig.id c = Some 0)).
Proof.
  intros W respond w accountInfo. split; [| split].
  - unfold managePass.
    destruct (configuredTokens accountInfo) as [configs |]; [| reflexivity].
    apply manageTokens_requests.
  - intros c tokenId. unfold managePlan.
    destruct (TokenConfig.id c) as [i |]; simpl.
    + destruct (Z.eqb_spec i 0) as [-> | Hne].
      * split; [discriminate |]. intros (H & Hz & _). congruence.
      * destruct (TokenConfig.is_deleted c) as [[|] |]; simpl.
        -- split.
           ++ intros H. injection H as <-. repeat split; assumption.
           ++ intros (H & _). injection H as <-. reflexivity.
        -- split; [discriminate |]. intros (_ & _ & H). discriminate H.
        -- split; [discriminate |]. intros (_ & _ & H). discriminate H.
    + split; [discriminate |]. intros (H & _). discriminate H.
  - intros c. unfold managePlan.
    destruct (TokenConfig.id c) as [i |]; simpl.
    + destruct (Z.eqb_spec i 0) as [-> | Hne].
      * split; [intros _; right; reflexivity | intros _; eexists; reflexivity].
      * split.
        -- intros [body H].
           destruct (JS.truthyB (TokenConfig.is_deleted c)); discriminate H.
        -- intros [H | H]; congruence.
    + split; [intros _; left; reflexivity | intros _; eexists; reflexivity].
Qed.

(** X7.  Without desired entries (no account info, no token list in it, or
    an empty one) and with a remote list that is not empty, the
    reconciliation only reads: its single request is the token listing, no
    token is created, deleted or updated, the ledger is not called, and the
    listed tokens are attached to the snapshot in their order. *)
Theorem reconcile_without_config_only_lists :
  forall (W : Type) (respond : W -> forall r : request, response r * W) (w : W)
         (accountInfo : option AccountInfo.t) (userInfo : UserInfo.t),
    configuredTokens accountInfo = None \/ configuredTokens accountInfo = Some [] ->
    tokenList (fst (respond w GetTokens)) <> [] ->
    requests (trace_of respond (reconcile accountInfo userInfo) w) = [GetTokens]
    /\ result_of respond (reconcile accountInfo userInfo) w
       = UserInfo.with_tokens userInfo
           (map tokenInfo (tokenList (fst (respond w GetTokens)))).
Proof.
  intros W respond w accountInfo userInfo Hcfg Hlisted.
  assert (Hmanage : managePass accountInfo = Ret []).
  { unfold managePass. destruct Hcfg as [-> | ->]; reflexivity. }
  assert (Hdrift : forall ts, driftSync accountInfo ts = Ret tt).
  { intros ts. unfold driftSync. destruct Hcfg as [-> | ->]; reflexivity. }
  assert (Hsupp : forall ts, supplementPass accountInfo ts = Ret ts).
  { intros ts. unfold supplementPass. destruct Hcfg as [-> | ->]; reflexivity. }
  unfold reconcile. rewrite Hmanage. autorewrite with run.
  rewrite Hdrift. autorewrite with run. cbn [uploadPending].
  autorewrite with run.
  unfold fetchAndSupplement, getTokens. autorewrite with run.
  destruct (tokenList (fst (respond w GetTokens))) as [| t ts]; [congruence |].
  rewrite Hsupp. autorewrite with run. split; reflexivity.
Qed.

Lemma only_signIn (P : request -> Prop) (accountInfo : option AccountInfo.t) :
  (forall userInfo, only P (reconcile accountInfo userInfo)) ->
  P PostSignIn -> P GetUserSelf -> P ContextClose ->
  (forall q, P (PostAffTransfer q)) ->
  only P (signIn accountInfo).
Proof.
  intros Hrec Hsign Hself Hclose Htransfer.
  assert (Hend : forall res : SignInResult,
            only P (bind (call ContextClose) (fun _ => Ret res))).
  { intros res. apply only_bind; [apply only_call, Hclose | intros; constructor]. }
  unfold signIn. apply only_bind; [apply only_call, Hsign |].
  intros [error | status data].
  - destruct (negb (String.eqb error "")); apply Hend.
  - destruct (status =? 200); [| apply Hend].
    destruct (signInAccepted data); [| apply Hend].
    apply only_bind; [apply only_call, Hself |].
    intros fetchedSelf.
    destruct (userInfoOf fetchedSelf) as [userInfo |]; [| apply Hend].
    destruct (JS.eqZ (UserInfo.status userInfo) (Some 2)); [apply Hend |].
    unfold afterSnapshot.
    apply only_bind; [apply only_transferReward, Htransfer |].
    intros u1. apply only_bind; [apply Hrec |].
    intros u2. apply Hend.
Qed.

Lemma meaningful_supplementTokens (configs : list TokenConfig.t) :
  forall tokens, only meaningful (supplementTokens configs tokens).
Proof.
  induction configs as [| c rest IH]; intros tokens; simpl.
  - constructor.
  - apply only_bind; [| intros a; apply IH].
    unfold supplementToken.
    destruct (find (sameId c) tokens) as [matched |]; [| constructor].
    apply only_bind; [apply only_updateToken; intros; exact I |].
    intros [updateResult |]; [| constructor].
    apply only_bind; [| intros; constructor].
    unfold mirrorSupplement.
    destruct (JS.nonEmpty (TokenConfig.key c)) as [key |]; [| constructor].
    apply only_bind; [apply only_call; exact I |].
    intros now. apply only_bind; [| intros; constructor].
    apply only_call. simpl. discriminate.
Qed.

Lemma meaningful_syncSellTokens (tokens : list RemoteToken.t)
    (configs : list TokenConfig.t) :
  only meaningful (syncSellTokens tokens configs).
Proof.
  induction configs as [| c rest IH]; simpl.
  - constructor.
  - apply only_bind; [| intros a; apply IH].
    unfold syncSellToken.
    destruct (find (sameKeyOrId c) tokens) as [current |]; [| constructor].
    match goal with |- only _ (if ?b then _ else _) => destruct b end;
      [| constructor].
    apply only_bind; [apply only_call; exact I |].
    intros now. apply only_bind; [| intros; constructor].
    apply only_call. simpl. discriminate.
Qed.

Lemma meaningful_reconcile (accountInfo : option AccountInfo.t)
    (userInfo : UserInfo.t) :
  only meaningful (reconcile accountInfo userInfo).
Proof.
  unfold reconcile. apply only_bind.
  { apply only_managePass; intros; exact I. }
  intros pending. apply only_bind.
  { unfold fetchAndSupplement.
    apply only_bind; [apply only_getTokens; exact I |].
    intros [| t ts].
    - apply only_bind; [apply only_createToken; intros; exact I |].
      intros [|]; [apply only_getTokens; exact I | constructor].
    - unfold supplementPass.
      destruct (configuredTokens accountInfo) as [configs |]; [| constructor].
      apply meaningful_supplementTokens. }
  intros tokens. apply only_bind.
  { unfold uploadPending. destruct pending as [| p rest]; [constructor |].
    destruct (keysToUpload accountInfo tokens (p :: rest)) as [| k ks] eqn:Hkeys;
      [constructor |].
    apply only_bind; [| intros; constructor].
    apply only_call. simpl. discriminate. }
  intros _. apply only_bind; [| intros; constructor].
  unfold driftSync.
  destruct (configuredTokens accountInfo) as [configs |]; [| constructor].
  apply meaningful_syncSellTokens.
Qed.


(** X9.  [signIn] never sends an empty ledger call: every [addKeys] call
    carries at least one record and every [updateKeyInfo] call carries an
    [updateData] part. *)
Theorem signIn_ledger_calls_are_never_empty :
  forall (W : Type) (respond : W -> forall r : request, response r * W) (w : W)
         (accountInfo : option AccountInfo.t),
    Forall meaningful (requests (trace_of respond (signIn accountInfo) w)).
Proof.
  intros W respond w accountInfo. apply only_trace.
  apply only_signIn; try exact I.
  - intros userInfo. apply meaningful_reconcile.
  - intros q. exact I.
Qed.

(** ** Further properties of the supplement pass *)

Lemma sameButRemain_refl (t : RemoteToken.t) : sameButRemain t t.
Proof. destruct t. reflexivity. Qed.

Lemma sameButRemain_trans (t1 t2 t3 : RemoteToken.t) :
  sameButRemain t1 t2 -> sameButRemain t2 t3 -> sameButRemain t1 t3.
Proof.
  unfold sameButRemain. intros H12 H23. rewrite H23 at 1. rewrite H12.
  destruct t1. reflexivity.
Qed.

Lemma Forall2_sameButRemain_refl (ts : list RemoteToken.t) :
  Forall2 sameButRemain ts ts.
Proof. induction ts; constructor; [apply sameButRemain_refl | assumption]. Qed.

Lemma Forall2_sameButRemain_trans (l1 l2 l3 : list RemoteToken.t) :
  Forall2 sameButRemain l1 l2 -> Forall2 sameButRemain l2 l3 ->
  Forall2 sameButRemain l1 l3.
Proof.
  intros H12. revert l3. induction H12 as [| a b l1 l2 Hab _ IH]; intros l3 H23.
  - inversion H23. constructor.
  - inversion H23 as [| b' c l2' l3' Hbc Hrest]; subst.
    constructor; [eapply sameButRemain_trans; eassumption | apply IH, Hrest].
Qed.

Lemma assignFirst_sameButRemain (p : RemoteToken.t -> bool) (q : option Z)
    (ts : list RemoteToken.t) :
  Forall2 sameButRemain ts
    (assignFirst p (fun t => RemoteToken.with_remain_quota t q) ts).
Proof.
  induction ts as [| t rest IH]; simpl; [constructor |].
  destruct (p t).
  - constructor; [| apply Forall2_sameButRemain_refl].
    unfold sameButRemain. destruct t. reflexivity.
  - constructor; [apply sameButRemain_refl | exact IH].
Qed.

Section SupplementMore.
Variable W : Type.
Variable respond : W -> forall r : request, response r * W.

Lemma supplementTokens_sameButRemain (configs : list TokenConfig.t) :
  forall (tokens : list RemoteToken.t) (w : W),
    Forall2 sameButRemain tokens (result_of respond (supplementTokens configs tokens) w).
Proof.
  induction configs as [| c rest IH]; intros tokens w.
  - apply Forall2_sameButRemain_refl.
  - cbn [supplementTokens]. autorewrite with run.
    eapply Forall2_sameButRemain_trans; [| apply IH].
    destruct (supplementToken_result respond c tokens w) as [-> | [q ->]].
    + apply Forall2_sameButRemain_refl.
    + apply assignFirst_sameButRemain.
Qed.

Hypothesis refused :
  forall (w : W) (d : RemoteToken.t), updatedToken (fst (respond w (PutToken d))) = None.

Lemma supplementToken_refused (c : TokenConfig.t) (tokens : list RemoteToken.t)
    (w : W) :
  result_of respond (supplementToken c tokens) w = tokens
  /\ requests (trace_of respond (supplementToken c tokens) w)
     = map PutToken (supplementOf tokens c).
Proof.
  unfold supplementToken, supplementOf.
  destruct (find (sameId c) tokens) as [matched |]; [| split; reflexivity].
  unfold updateToken. autorewrite with run. rewrite refused.
  autorewrite with run. split; reflexivity.
Qed.

Lemma supplementTokens_refused (configs : list TokenConfig.t) :
  forall (tokens : list RemoteToken.t) (w : W),
    result_of respond (supplementTokens configs tokens) w = tokens
    /\ requests (trace_of respond (supplementTokens configs tokens) w)
       = map PutToken (flat_map (supplementOf tokens) configs).
Proof.
  induction configs as [| c rest IH]; intros tokens w; [split; reflexivity |].
  cbn [supplementTokens flat_map]. autorewrite with run.
  destruct (supplementToken_refused c tokens w) as [Hres Hreq].
  rewrite Hres, Hreq.
  destruct (IH tokens (world_of respond (supplementToken c tokens) w)) as [IHres IHreq].
  rewrite IHres, IHreq, map_app. split; reflexivity.
Qed.
End SupplementMore.

(** X10.  The supplement pass keeps the local token list in shape: the
    list it returns has the same length and order as the fetched one, and
    each token differs from the fetched one at most in its remaining
    quota. *)
Theorem supplementPass_changes_only_remain_quota :
  forall (W : Type) (respond : W -> forall r : request, response r * W) (w : W)
         (accountInfo : option AccountInfo.t) (tokens : list RemoteToken.t),
    Forall2 sameButRemain tokens
      (result_of respond (supplementPass accountInfo tokens) w)
    /\ length (result_of respond (supplementPass accountInfo tokens) w)
       = length tokens
    /\ map RemoteToken.id (result_of respond (supplementPass accountInfo tokens) w)
       = map RemoteToken.id tokens.
Proof.
  intros W respond w accountInfo tokens.
  assert (H : Forall2 sameButRemain tokens
                (result_of respond (supplementPass accountInfo tokens) w)).
  { unfold supplementPass.
    destruct (configuredTokens accountInfo) as [configs |].
    - apply supplementTokens_sameButRemain.
    - apply Forall2_sameButRemain_refl. }
  split; [exact H |]. split.
  - symmetry. eapply Forall2_length, H.
  - induction H as [| t t' l l' Htt' _ IH]; [reflexivity |].
    simpl. rewrite IH. f_equal. unfold sameButRemain in Htt'.
    rewrite Htt'. reflexivity.
Qed.

(** X11.  When the console confirms no update (refusal, transport failure,
    or a success body without record), the supplement pass still attempts
    each matched entry once, every time on the quota as fetched; it leaves
    the local token list as fetched and does not call the ledger. *)
Theorem supplementPass_with_updates_refused :
  forall (W : Type) (respond : W -> forall r : request, response r * W) (w : W)
         (accountInfo : option AccountInfo.t) (tokens : list RemoteToken.t),
    (forall (v : W) (d : RemoteToken.t),
        updatedToken (fst (respond v (PutToken d))) = None) ->
    result_of respond (supplementPass accountInfo tokens) w = tokens
    /\ requests (trace_of respond (supplementPass accountInfo tokens) w)
       = map PutToken (flat_map (supplementOf tokens) (tokensToSupplement accountInfo))
    /\ keyUpdates (requests (trace_of respond (supplementPass accountInfo tokens) w))
       = [].
Proof.
  intros W respond w accountInfo tokens Hrefused.
  assert (H : result_of respond (supplementPass accountInfo tokens) w = tokens
              /\ requests (trace_of respond (supplementPass accountInfo tokens) w)
                 = map PutToken
                     (flat_map (supplementOf tokens) (tokensToSupplement accountInfo))).
  { unfold supplementPass, tokensToSupplement.
    destruct (configuredTokens accountInfo) as [configs |]; [| split; reflexivity].
    apply supplementTokens_refused, Hrefused. }
  destruct H as [Hres Hreq]. split; [exact Hres |]. split; [exact Hreq |].
  rewrite Hreq. clear Hreq.
  induction (flat_map (supplementOf tokens) (tokensToSupplement accountInfo))
    as [| d ds IH]; [reflexivity | exact IH].
Qed.

(** ** Further properties of token creation and upload *)

(** X12.  A create request never carries an empty name, a remaining quota
    of 0 or [unlimited_quota: false]: a configured name [""] is sent as
    ["dw"], and a configured [remain_quota] of 0 (like a missing one) as
    500000. *)
Theorem createToken_body_replaces_falsy_values :
  forall tokenConfig : CreateConfig.t,
    let body := createTokenBody tokenConfig in
    CreateBody.name body <> ""
    /\ CreateBody.remain_quota body <> Some 0
    /\ CreateBody.unlimited_quota body <> Some false
    /\ (CreateConfig.name tokenConfig = Some "" -> CreateBody.name body = "dw")
    /\ (JS.truthyB (CreateConfig.unlimited_quota tokenConfig) = false ->
        CreateConfig.remain_quota tokenConfig = Some 0 ->
        CreateBody.remain_quota body = Some 500000).
Proof.
  intros [unlimited remain name] body. subst body. unfold createTokenBody. simpl.
  assert (Hname : JS.orS name "dw" <> "").
  { destruct name as [s |]; simpl; [| discriminate].
    destruct (String.eqb_spec s ""); [discriminate | assumption]. }
  assert (Hremain : JS.orZ remain 500000 <> 0).
  { destruct remain as [z |]; simpl; [| discriminate].
    destruct (Z.eqb_spec z 0); [discriminate | assumption]. }
  destruct (JS.truthyB unlimited); simpl.
  - repeat split; try assumption; try discriminate.
    intros ->. reflexivity.
  - repeat split; try assumption; try discriminate.
    + congruence.
    + intros ->. reflexivity.
    + intros _ ->. reflexivity.
Qed.

(** The body for [{name: "", remain_quota: 0}]. *)
Lemma createToken_body_falsy_example :
  CreateBody.name (createTokenBody (CreateConfig.Build None (Some 0) (Some ""))) = "dw"
  /\ CreateBody.remain_quota
       (createTokenBody (CreateConfig.Build None (Some 0) (Some "")))
     = Some 500000.
Proof.
  destruct (createToken_body_replaces_falsy_values
              (CreateConfig.Build None (Some 0) (Some "")))
    as (_ & _ & _ & Hname & Hremain).
  split; [apply Hname; reflexivity | apply Hremain; reflexivity].
Defined.

(** X13.  The quota of an uploaded sale record is the configured
    [remain_quota], not the quota the token was created with: for a sale
    entry without [remain_quota] (or with 0) the token is created with
    500000, or unlimited, and every record built for it says quota 0. *)
Theorem sale_record_quota_ignores_creation_default :
  forall (accountInfo : option AccountInfo.t) (tokens : list RemoteToken.t)
         (tokenConfig : TokenConfig.t) (name : string) (record : KeyRecord.t),
    JS.nonZero (TokenConfig.remain_quota tokenConfig) = None ->
    In record (keysToUpload accountInfo tokens
                 [Pending.Build name (TokenConfig.remain_quota tokenConfig)]) ->
    KeyRecord.quota record = 0%Q
    /\ (CreateBody.remain_quota
          (createTokenBody
             (CreateConfig.Build
                (Some (JS.truthyB (TokenConfig.unlimited_quota tokenConfig)))
                (TokenConfig.remain_quota tokenConfig)
                (TokenConfig.name tokenConfig)))
        = if JS.truthyB (TokenConfig.unlimited_quota tokenConfig)
          then None
          else Some 500000).
Proof.
  intros accountInfo tokens tokenConfig name record Hzero Hin.
  split.
  - apply keysToUpload_spec in Hin.
    destruct Hin as (p & t & k & [<- | []] & _ & _ & ->). simpl.
    destruct (TokenConfig.remain_quota tokenConfig) as [z |]; simpl in *;
      [| reflexivity].
    destruct (z =? 0); [reflexivity | discriminate Hzero].
  - unfold createTokenBody. simpl.
    destruct (JS.truthyB (TokenConfig.unlimited_quota tokenConfig)); simpl;
      [reflexivity |].
    destruct (TokenConfig.remain_quota tokenConfig) as [z |]; simpl in *;
      [| reflexivity].
    destruct (z =? 0); [reflexivity | discriminate Hzero].
Qed.

(** A sale token configured without quota, listed with key material. *)
Lemma sale_record_quota_example :
  KeyRecord.quota
    (KeyRecord.Build "sk-8" "anyrouter" false 0%Q "alice&出售_a" (Some "acc-1"))
  = 0%Q
  /\ CreateBody.remain_quota
       (createTokenBody (CreateConfig.Build (Some false) None (Some "出售_a")))
     = Some 500000.
Proof.
  apply (@sale_record_quota_ignores_creation_default
           (Scenario.account []) [Scenario.token8 "出售_a"]
           (TokenConfig.Build None None (Some "出售_a") None None None None None None)
           "出售_a").
  - reflexivity.
  - left. reflexivity.
Defined.

(** ** The further properties on concrete runs *)

(** A console that cannot be reached, with and without an error text. *)
Lemma signIn_transport_failure_example :
  (result_of (Scenario2.offline "Failed to fetch") (signIn None) tt
   = Failure "Failed to fetch"
   /\ requests (trace_of (Scenario2.offline "Failed to fetch") (signIn None) tt)
      = [PostSignIn; ContextClose])
  /\ (result_of (Scenario2.offline "") (signIn None) tt = Failure "HTTP undefined"
      /\ requests (trace_of (Scenario2.offline "") (signIn None) tt)
         = [PostSignIn; ContextClose]).
Proof.
  split.
  - apply (@signIn_transport_failure unit (Scenario2.offline "Failed to fetch")
             tt tt None "Failed to fetch"). reflexivity.
  - apply (@signIn_transport_failure unit (Scenario2.offline "") tt tt None "").
    reflexivity.
Defined.

(** An accepted sign-in on a console whose snapshot fetch throws. *)
Lemma signIn_without_snapshot_example :
  result_of (Scenario.agreeable None [Scenario.token7])
            (signIn (Scenario.account [Scenario.supplement7 None])) tt
  = Success None
  /\ requests (trace_of (Scenario.agreeable None [Scenario.token7])
                 (signIn (Scenario.account [Scenario.supplement7 None])) tt)
     = [PostSignIn; GetUserSelf; ContextClose].
Proof.
  apply (@signIn_without_snapshot unit (Scenario.agreeable None [Scenario.token7])
           tt tt tt (Scenario.account [Scenario.supplement7 None])
           (SignInBody.Build None None true None None) None).
  - reflexivity.
  - reflexivity.
  - reflexivity.
  - left. reflexivity.
Defined.

(** An active account with a reward and a supplement. *)
Lemma signIn_keeps_identity_example :
  exists userInfo',
    result_of (Scenario.agreeable (Scenario.alice (Some 40000) (Some 1))
                 [Scenario.token7])
              (signIn (Scenario.account [Scenario.supplement7 None])) tt
    = Success (Some userInfo')
    /\ UserInfo.username userInfo' = Some "alice"
    /\ UserInfo.email userInfo' = Some "alice@example.org"
    /\ UserInfo.usedQuota userInfo' = 250000
    /\ UserInfo.affCode userInfo' = Some "c15A"
    /\ UserInfo.status userInfo' = Some 1.
Proof.
  apply (@signIn_keeps_identity_fields unit
           (Scenario.agreeable (Scenario.alice (Some 40000) (Some 1)) [Scenario.token7])
           tt tt tt (Scenario.account [Scenario.supplement7 None])
           (SignInBody.Build None None true None None)
           (Scenario.alice (Some 40000) (Some 1))
           (Scenario.aliceInfo 40000 (Some 1))).
  - reflexivity.
  - reflexivity.
  - reflexivity.
  - reflexivity.
  - discriminate.
Defined.

(** The requests of the management pass for a mixed list, on a console
    that refuses every write. *)
Lemma managePass_example :
  requests (trace_of (Scenario.readOnly []) (managePass (Scenario.account Scenario2.mixed)) tt)
  = [DeleteToken 3;
     PostToken (CreateBody.Build "spare" (-1) false "" "" "default" None (Some 1000000));
     PostToken (CreateBody.Build "zero" (-1) false "" "" "default" None (Some 500000))].
Proof.
  destruct (managePass_requests_do_not_depend_on_answers (Scenario.readOnly []) tt
              (Scenario.account Scenario2.mixed)) as [Hreq _].
  exact Hreq.
Defined.

(** No desired entries and one remote token. *)
Lemma reconcile_without_config_example :
  requests (trace_of (Scenario.agreeable None [Scenario.token7])
              (reconcile None (Scenario.aliceInfo 0 (Some 1))) tt)
  = [GetTokens]
  /\ result_of (Scenario.agreeable None [Scenario.token7])
       (reconcile None (Scenario.aliceInfo 0 (Some 1))) tt
     = UserInfo.with_tokens (Scenario.aliceInfo 0 (Some 1))
         [TokenInfo.Build 7 None None None None (Some 100000) 0].
Proof.
  apply (@reconcile_without_config_only_lists unit
           (Scenario.agreeable None [Scenario.token7]) tt None
           (Scenario.aliceInfo 0 (Some 1))).
  - left. reflexivity.
  - discriminate.
Defined.

(** A supplement on a console that refuses writes. *)
Lemma supplementPass_refused_example :
  result_of (Scenario.readOnly [])
    (supplementPass (Scenario.account [Scenario.supplement7 (Some "sk-7")])
                    [Scenario.token7]) tt
  = [Scenario.token7]
  /\ requests (trace_of (Scenario.readOnly [])
                 (supplementPass (Scenario.account [Scenario.supplement7 (Some "sk-7")])
                                 [Scenario.token7]) tt)
     = [PutToken (RemoteToken.with_remain_quota Scenario.token7 (Some 150000))]
  /\ keyUpdates
       (requests (trace_of (Scenario.readOnly [])
                    (supplementPass
                       (Scenario.account [Scenario.supplement7 (Some "sk-7")])
                       [Scenario.token7]) tt))
     = [].
Proof.
  apply (@supplementPass_with_updates_refused unit (Scenario.readOnly []) tt
           (Scenario.account [Scenario.supplement7 (Some "sk-7")])
           [Scenario.token7]).
  intros v d. reflexivity.
Defined.

(** ** The WAF cookies *)

Lemma getProp_setProp_same (k v : string) (o : Waf.object) :
  Waf.getProp k (Waf.setProp k v o) = Some v.
Proof.
  induction o as [| [k' v'] rest IH]; simpl.
  - rewrite String.eqb_refl. reflexivity.
  - destruct (String.eqb k k') eqn:Hk; simpl; rewrite Hk; [reflexivity | exact IH].
Qed.

Lemma getProp_setProp_other (k k' v : string) (o : Waf.object) :
  k <> k' -> Waf.getProp k' (Waf.setProp k v o) = Waf.getProp k' o.
Proof.
  intros Hne. induction o as [| [k0 v0] rest IH]; simpl.
  - destruct (String.eqb_spec k' k); [congruence | reflexivity].
  - destruct (String.eqb_spec k k0) as [-> | Hk]; simpl.
    + destruct (String.eqb_spec k' k0); [congruence | reflexivity].
    + destruct (String.eqb k' k0); [reflexivity | exact IH].
Qed.

Lemma keys_setProp (k v : string) (o : Waf.object) (k' : string) :
  In k' (map fst (Waf.setProp k v o)) <-> k' = k \/ In k' (map fst o).
Proof.
  induction o as [| [k0 v0] rest IH]; simpl.
  - intuition congruence.
  - destruct (String.eqb_spec k k0) as [-> | Hk]; simpl.
    + intuition congruence.
    + rewrite IH. intuition congruence.
Qed.

Lemma nodup_setProp (k v : string) (o : Waf.object) :
  NoDup (map fst o) -> NoDup (map fst (Waf.setProp k v o)).
Proof.
  induction o as [| [k0 v0] rest IH]; simpl; intros Hnd.
  - constructor; [intros [] | constructor].
  - inversion Hnd as [| ? ? Hnotin Hrest]; subst.
    destruct (String.eqb_spec k k0) as [-> | Hk]; simpl.
    + constructor; assumption.
    + constructor; [| apply IH, Hrest].
      rewrite keys_setProp. intros [H | H]; [congruence | contradiction].
Qed.

Lemma getProp_in_keys (k v : string) (o : Waf.object) :
  Waf.getProp k o = Some v -> In k (map fst o).
Proof.
  induction o as [| [k0 v0] rest IH]; simpl; [discriminate |].
  destruct (String.eqb_spec k k0) as [-> | Hk]; [left; reflexivity |].
  intros H. right. apply IH, H.
Qed.

Lemma includes_In (names : list string) (s : string) :
  Waf.includes names s = true <-> In s names.
Proof.
  unfold Waf.includes. rewrite existsb_exists. split.
  - intros (x & Hin & Heq). apply String.eqb_eq in Heq. subst. exact Hin.
  - intros Hin. exists s. split; [exact Hin | apply String.eqb_refl].
Qed.

Lemma find_snoc (A : Type) (f : A -> bool) (l : list A) (x : A) :
  find f (l ++ [x])
  = match find f l with
    | Some y => Some y
    | None => if f x then Some x else None
    end.
Proof.
  induction l as [| a l IH]; simpl; [reflexivity |].
  destruct (f a); [reflexivity | exact IH].
Qed.

Lemma lastValue_cons (n : string) (c : Waf.Cookie) (cookies : list Waf.Cookie) :
  Waf.lastValue n (c :: cookies)
  = match Waf.lastValue n cookies with
    | Some v => Some v
    | None => if String.eqb n (Waf.name c) then Some (Waf.value c) else None
    end.
Proof.
  unfold Waf.lastValue. simpl rev. rewrite find_snoc.
  destruct (find (fun c0 => String.eqb n (Waf.name c0)) (rev cookies));
    [reflexivity |].
  destruct (String.eqb n (Waf.name c)); reflexivity.
Qed.

Lemma collect_getProp (cookies : list Waf.Cookie) :
  forall (o : Waf.object) (n : string),
    Waf.getProp n (Waf.collect cookies o)
    = if Waf.includes Waf.wafNames n
      then match Waf.lastValue n cookies with
           | Some v => Some v
           | None => Waf.getProp n o
           end
      else Waf.getProp n o.
Proof.
  induction cookies as [| c rest IH]; intros o n.
  - cbn [Waf.collect]. change (Waf.lastValue n []) with (@None string).
    destruct (Waf.includes Waf.wafNames n); reflexivity.
  - cbn [Waf.collect]. rewrite IH, lastValue_cons.
    destruct (Waf.includes Waf.wafNames n) eqn:Hn.
    + destruct (Waf.lastValue n rest) as [v |]; [reflexivity |].
      destruct (String.eqb_spec n (Waf.name c)) as [-> | Hne].
      * rewrite Hn. apply getProp_setProp_same.
      * destruct (Waf.includes Waf.wafNames (Waf.name c)); [| reflexivity].
        apply getProp_setProp_other. congruence.
    + destruct (Waf.includes Waf.wafNames (Waf.name c)) eqn:Hc; [| reflexivity].
      apply getProp_setProp_other. intros Heq. congruence.
Qed.

Lemma collect_keys (cookies : list Waf.Cookie) :
  forall (o : Waf.object),
    NoDup (map fst o) ->
    (forall k, In k (map fst o) -> In k Waf.wafNames) ->
    NoDup (map fst (Waf.collect cookies o))
    /\ (forall k, In k (map fst (Waf.collect cookies o)) -> In k Waf.wafNames).
Proof.
  induction cookies as [| c rest IH]; intros o Hnd Hsub; [split; assumption |].
  cbn [Waf.collect].
  destruct (Waf.includes Waf.wafNames (Waf.name c)) eqn:Hc.
  - apply IH.
    + apply nodup_setProp, Hnd.
    + intros k Hk. apply keys_setProp in Hk. destruct Hk as [-> | Hk].
      * apply includes_In, Hc.
      * apply Hsub, Hk.
  - apply IH; assumption.
Qed.

(** X14.  The loop over the browser's cookies keeps, for each of the three
    WAF names, the value of the last cookie of that name, and nothing under
    any other name. *)
Theorem collect_keeps_last_waf_values :
  forall (cookies : list Waf.Cookie) (n : string),
    Waf.getProp n (Waf.collect cookies [])
    = if Waf.includes Waf.wafNames n then Waf.lastValue n cookies else None.
Proof.
  intros cookies n. rewrite collect_getProp. cbn [Waf.getProp].
  destruct (Waf.includes Waf.wafNames n); [| reflexivity].
  destruct (Waf.lastValue n cookies); reflexivity.
Qed.

Section WafFacts.
Variable W : Type.
Variable respond : W -> forall r : Waf.request, Waf.response r * W.

(** The only way to a result: all steps up to the cookies succeed and no
    required cookie is missing. *)
Lemma getWafCookies_some (w : W) (wafCookies : Waf.object) :
  Waf.result_of respond Waf.getWafCookies w = Some wafCookies ->
  exists cookies,
    wafCookies = Waf.collect cookies []
    /\ Waf.missingCookies wafCookies = [].
Proof.
  unfold Waf.result_of, Waf.getWafCookies. cbn [Waf.run Waf.bind Waf.call].
  destruct (respond w Waf.Launch) as [[m | []] w1]; cbn [Waf.run Waf.bind];
    [discriminate |].
  destruct (respond w1 Waf.NewPage) as [[m | []] w2]; cbn [Waf.run Waf.bind].
  { destruct (respond w2 Waf.Close). discriminate. }
  destruct (respond w2 Waf.GotoLogin) as [[m | []] w3]; cbn [Waf.run Waf.bind].
  { destruct (respond w3 Waf.Close). discriminate. }
  destruct (respond w3 Waf.WaitComplete) as [[m | []] w4];
    cbn [Waf.run Waf.bind Waf.call].
  - destruct (respond w4 (Waf.RandomDelay 3000 3000)) as [[] w5];
      cbn [Waf.run Waf.bind].
    destruct (respond w5 Waf.ContextCookies) as [[m' | cookies] w6];
      cbn [Waf.run Waf.bind].
    { destruct (respond w6 Waf.Close). discriminate. }
    destruct (Waf.missingCookies (Waf.collect cookies [])) eqn:Hmiss;
      cbn [Waf.run Waf.bind]; destruct (respond w6 Waf.Close); simpl;
      [| discriminate].
    intros H. injection H as <-. exists cookies. split; [reflexivity | exact Hmiss].
  - destruct (respond w4 Waf.ContextCookies) as [[m' | cookies] w6];
      cbn [Waf.run Waf.bind].
    { destruct (respond w6 Waf.Close). discriminate. }
    destruct (Waf.missingCookies (Waf.collect cookies [])) eqn:Hmiss;
      cbn [Waf.run Waf.bind]; destruct (respond w6 Waf.Close); simpl;
      [| discriminate].
    intros H. injection H as <-. exists cookies. split; [reflexivity | exact Hmiss].
Qed.
End WafFacts.

(** X15.  [getWafCookies] returns all or nothing: a returned object has
    exactly the three required cookies, each once and each with a
    non-empty value; a missing or empty one makes the result null. *)
Theorem getWafCookies_all_or_nothing :
  forall (W : Type) (respond : W -> forall r : Waf.request, Waf.response r * W)
         (w : W) (wafCookies : Waf.object),
    Waf.result_of respond Waf.getWafCookies w = Some wafCookies ->
    (forall n, In n Waf.requiredCookies ->
               exists v, Waf.getProp n wafCookies = Some v /\ v <> "")
    /\ (forall k, In k (map fst wafCookies) -> In k Waf.requiredCookies)
    /\ NoDup (map fst wafCookies)
    /\ length wafCookies = 3%nat.
Proof.
  intros W respond w wafCookies Hres.
  destruct (getWafCookies_some respond w Hres) as (cookies & -> & Hmiss).
  destruct (@collect_keys cookies []) as [Hnd Hsub].
  { constructor. }
  { intros k []. }
  assert (Hall : forall n, In n Waf.requiredCookies ->
            exists v, Waf.getProp n (Waf.collect cookies []) = Some v /\ v <> "").
  { intros n Hn. unfold Waf.missingCookies in Hmiss.
    assert (Hf : negb (JS.truthyS (Waf.getProp n (Waf.collect cookies []))) = false).
    { destruct (negb (JS.truthyS (Waf.getProp n (Waf.collect cookies [])))) eqn:Hb;
        [| reflexivity].
      assert (Hin : In n (filter
                (fun c => negb (JS.truthyS (Waf.getProp c (Waf.collect cookies []))))
                Waf.requiredCookies)).
      { apply filter_In. split; assumption. }
      rewrite Hmiss in Hin. destruct Hin. }
    apply negb_false_iff in Hf.
    destruct (Waf.getProp n (Waf.collect cookies [])) as [v |]; simpl in Hf;
      [| discriminate].
    exists v. split; [reflexivity |].
    intros ->. discriminate Hf. }
  split; [exact Hall |]. split; [exact Hsub |]. split; [exact Hnd |].
  rewrite <- (length_map fst). apply Nat.le_antisymm.
  - apply (NoDup_incl_length Hnd (l' := Waf.wafNames)). exact Hsub.
  - apply (@NoDup_incl_length _ Waf.requiredCookies).
    + repeat constructor; simpl; intuition discriminate.
    + intros n Hn. destruct (Hall n Hn) as (v & Hv & _).
      eapply getProp_in_keys, Hv.
Qed.

(** A visit that passed the challenge: the later value of [acw_tc] wins. *)
Lemma getWafCookies_example :
  (forall n, In n Waf.requiredCookies ->
             exists v,
               Waf.getProp n [("acw_tc", "t1"); ("cdn_sec_tc", "c2");
                              ("acw_sc__v2", "v3")]
               = Some v /\ v <> "")
  /\ (forall k, In k (map fst [("acw_tc", "t1"); ("cdn_sec_tc", "c2");
                               ("acw_sc__v2", "v3")]) ->
                In k Waf.requiredCookies)
  /\ NoDup (map fst [("acw_tc", "t1"); ("cdn_sec_tc", "c2"); ("acw_sc__v2", "v3")])
  /\ length [("acw_tc", "t1"); ("cdn_sec_tc", "c2"); ("acw_sc__v2", "v3")] = 3%nat.
Proof.
  apply (@getWafCookies_all_or_nothing unit
           (Waf.browser Waf.passed (fun _ => false)) tt).
  reflexivity.
Defined.

(** X16.  [getWafCookies] releases the context it launched exactly once, as
    its last step, on every path; when the launch itself rejects there is
    no context, nothing else is attempted and the result is null. *)
Theorem getWafCookies_closes_what_it_launched :
  forall (W : Type) (respond : W -> forall r : Waf.request, Waf.response r * W)
         (w : W),
    let rs := Waf.requests (Waf.trace_of respond Waf.getWafCookies w) in
    match fst (respond w Waf.Launch) with
    | Waf.Thrown _ =>
        rs = [Waf.Launch] /\ Waf.result_of respond Waf.getWafCookies w = None
    | Waf.Done _ =>
        exists steps,
          rs = Waf.Launch :: steps ++ [Waf.Close]
          /\ ~ In Waf.Close steps /\ ~ In Waf.Launch steps
    end.
Proof.
  intros W respond w.
  unfold Waf.result_of, Waf.trace_of, Waf.getWafCookies.
  cbn [Waf.run Waf.bind Waf.call].
  destruct (respond w Waf.Launch) as [[m | []] w1]; cbn [Waf.run Waf.bind fst snd].
  { split; reflexivity. }
  destruct (respond w1 Waf.NewPage) as [[m | []] w2]; cbn [Waf.run Waf.bind].
  { destruct (respond w2 Waf.Close). exists [Waf.NewPage].
    split; [reflexivity |]. split; intros [H | []]; discriminate H. }
  destruct (respond w2 Waf.GotoLogin) as [[m | []] w3]; cbn [Waf.run Waf.bind].
  { destruct (respond w3 Waf.Close). exists [Waf.NewPage; Waf.GotoLogin].
    split; [reflexivity |]. split; intros [H | [H | []]]; discriminate H. }
  destruct (respond w3 Waf.WaitComplete) as [[m | []] w4];
    cbn [Waf.run Waf.bind Waf.call].
  - destruct (respond w4 (Waf.RandomDelay 3000 3000)) as [[] w5];
      cbn [Waf.run Waf.bind].
    destruct (respond w5 Waf.ContextCookies) as [[m' | cookies] w6];
      cbn [Waf.run Waf.bind].
    + destruct (respond w6 Waf.Close).
      exists [Waf.NewPage; Waf.GotoLogin; Waf.WaitComplete;
              Waf.RandomDelay 3000 3000; Waf.ContextCookies].
      split; [reflexivity |].
      split; intros H; repeat (destruct H as [H | H]; [discriminate H |]);
        destruct H.
    + destruct (Waf.missingCookies (Waf.collect cookies []));
        cbn [Waf.run Waf.bind]; destruct (respond w6 Waf.Close);
        exists [Waf.NewPage; Waf.GotoLogin; Waf.WaitComplete;
                Waf.RandomDelay 3000 3000; Waf.ContextCookies];
        (split; [reflexivity |]);
        split; intros H; repeat (destruct H as [H | H]; [discriminate H |]);
          destruct H.
  - destruct (respond w4 Waf.ContextCookies) as [[m' | cookies] w6];
      cbn [Waf.run Waf.bind].
    + destruct (respond w6 Waf.Close).
      exists [Waf.NewPage; Waf.GotoLogin; Waf.WaitComplete; Waf.ContextCookies].
      split; [reflexivity |].
      split; intros H; repeat (destruct H as [H | H]; [discriminate H |]);
        destruct H.
    + destruct (Waf.missingCookies (Waf.collect cookies []));
        cbn [Waf.run Waf.bind]; destruct (respond w6 Waf.Close);
        exists [Waf.NewPage; Waf.GotoLogin; Waf.WaitComplete; Waf.ContextCookies];
        (split; [reflexivity |]);
        split; intros H; repeat (destruct H as [H | H]; [discriminate H |]);
          destruct H.
Qed.

(** X17.  A readiness wait that times out does not abort [getWafCookies]:
    once the login page is visited the cookies are read either way, after
    a delay of exactly 3000 ms when the wait rejected and at once when it
    did not. *)
Theorem getWafCookies_tolerates_readiness_timeout :
  forall (W : Type) (respond : W -> forall r : Waf.request, Waf.response r * W)
         (w w1 w2 w3 : W),
    respond w Waf.Launch = (Waf.Done tt, w1) ->
    respond w1 Waf.NewPage = (Waf.Done tt, w2) ->
    respond w2 Waf.GotoLogin = (Waf.Done tt, w3) ->
    Waf.requests (Waf.trace_of respond Waf.getWafCookies w)
    = [Waf.Launch; Waf.NewPage; Waf.GotoLogin; Waf.WaitComplete]
      ++ match fst (respond w3 Waf.WaitComplete) with
         | Waf.Thrown _ => [Waf.RandomDelay 3000 3000]
         | Waf.Done _ => []
         end
      ++ [Waf.ContextCookies; Waf.Close].
Proof.
  intros W respond w w1 w2 w3 Hlaunch Hpage Hgoto.
  unfold Waf.trace_of, Waf.getWafCookies.
  cbn [Waf.run Waf.bind Waf.call]. rewrite Hlaunch. cbn [Waf.run Waf.bind].
  rewrite Hpage. cbn [Waf.run Waf.bind]. rewrite Hgoto. cbn [Waf.run Waf.bind].
  destruct (respond w3 Waf.WaitComplete) as [[m | []] w4];
    cbn [Waf.run Waf.bind Waf.call fst].
  - destruct (respond w4 (Waf.RandomDelay 3000 3000)) as [[] w5];
      cbn [Waf.run Waf.bind].
    destruct (respond w5 Waf.ContextCookies) as [[m' | cookies] w6];
      cbn [Waf.run Waf.bind].
    + destruct (respond w6 Waf.Close). reflexivity.
    + destruct (Waf.missingCookies (Waf.collect cookies []));
        cbn [Waf.run Waf.bind]; destruct (respond w6 Waf.Close); reflexivity.
  - destruct (respond w4 Waf.ContextCookies) as [[m' | cookies] w6];
      cbn [Waf.run Waf.bind].
    + destruct (respond w6 Waf.Close). reflexivity.
    + destruct (Waf.missingCookies (Waf.collect cookies []));
        cbn [Waf.run Waf.bind]; destruct (respond w6 Waf.Close); reflexivity.
Qed.

(** A visit whose readiness wait times out. *)
Lemma getWafCookies_timeout_example :
  Waf.requests
    (Waf.trace_of
       (Waf.browser Waf.passed
          (fun r => match r with Waf.WaitComplete => true | _ => false end))
       Waf.getWafCookies tt)
  = [Waf.Launch; Waf.NewPage; Waf.GotoLogin; Waf.WaitComplete;
     Waf.RandomDelay 3000 3000; Waf.ContextCookies; Waf.Close].
Proof.
  apply (@getWafCookies_tolerates_readiness_timeout unit
           (Waf.browser Waf.passed
              (fun r => match r with Waf.WaitComplete => true | _ => false end))
           tt tt tt tt); reflexivity.
Defined.

(** X18.  The two snapshot readers agree when there is a payload and
    differ when there is none: on a 200 answer, [getUserInfo] returns the
    username, email, quota, used quota and affiliate code that the in-page
    reader of [signIn] returns; for a success body without payload the
    in-page reader returns null while [getUserInfo] returns an object
    without fields; for a body that is not a success both return null. *)
Theorem getUserInfo_and_page_reader :
  forall (W : Type) (respond : W -> forall r : Waf.request, Waf.response r * W)
         (w w1 : W) (cookies : Waf.object) (body : Api.body UserData.t),
    respond w (Waf.GetSelf (Waf.cookieString cookies)) = (Waf.Done (200, body), w1) ->
    (forall userInfo,
        userInfoOf (Some body) = Some userInfo ->
        Waf.result_of respond (Waf.getUserInfo cookies) w
        = Some (Waf.MkBasicInfo (UserInfo.username userInfo)
                  (UserInfo.email userInfo) (Some (UserInfo.quota userInfo))
                  (Some (UserInfo.usedQuota userInfo)) (UserInfo.affCode userInfo)))
    /\ (Api.success body = true -> Api.data body = None ->
        userInfoOf (Some body) = None
        /\ Waf.result_of respond (Waf.getUserInfo cookies) w
           = Some (Waf.MkBasicInfo None None None None None))
    /\ (Api.success body = false ->
        userInfoOf (Some body) = None
        /\ Waf.result_of respond (Waf.getUserInfo cookies) w = None).
Proof.
  intros W respond w w1 cookies body Hget.
  unfold Waf.result_of, Waf.getUserInfo. cbn [Waf.run Waf.bind Waf.call].
  rewrite Hget. cbn [Waf.run Waf.bind]. rewrite Z.eqb_refl. cbn [andb].
  unfold userInfoOf.
  destruct (Api.success body); [| repeat split; congruence].
  destruct (Api.data body) as [d |]; cbn [Waf.run fst].
  - split; [| split; intros; discriminate].
    intros u Hu. injection Hu as <-. reflexivity.
  - split; [discriminate |]. split; [split; reflexivity | discriminate].
Qed.

(** The user of the scenarios, read over HTTP with the WAF cookies; and a
    success body without payload. *)
Lemma getUserInfo_example :
  Waf.result_of
    (Scenario2.client
       (Api.Body true None
          (Some (UserData.Build (Some "alice") (Some "alice@example.org")
                   1000000 250000 (Some "c15A") None (Some 1)))))
    (Waf.getUserInfo [("acw_tc", "t1"); ("session", "s1")]) tt
  = Some (Waf.MkBasicInfo (Some "alice") (Some "alice@example.org")
            (Some 1000000) (Some 250000) (Some "c15A"))
  /\ Waf.result_of (Scenario2.client (Api.Body true None None))
       (Waf.getUserInfo [("acw_tc", "t1"); ("session", "s1")]) tt
     = Some (Waf.MkBasicInfo None None None None None).
Proof.
  split.
  - destruct (@getUserInfo_and_page_reader unit
                (Scenario2.client
                   (Api.Body true None
                      (Some (UserData.Build (Some "alice") (Some "alice@example.org")
                               1000000 250000 (Some "c15A") None (Some 1)))))
                tt tt [("acw_tc", "t1"); ("session", "s1")] _ eq_refl)
      as [Hsame _].
    apply (Hsame (Scenario.aliceInfo 0 (Some 1))). reflexivity.
  - destruct (@getUserInfo_and_page_reader unit
                (Scenario2.client (Api.Body true None None))
                tt tt [("acw_tc", "t1"); ("session", "s1")] _ eq_refl)
      as [_ [Hempty _]].
    apply Hempty; reflexivity.
Defined.

(** ** The command-line entry *)

Lemma withoutConfig_reconcile (userInfo : UserInfo.t) :
  only withoutConfigRequest (reconcile None userInfo).
Proof.
  unfold reconcile, managePass. cbn [configuredTokens bind].
  apply only_bind.
  { unfold fetchAndSupplement.
    apply only_bind; [apply only_getTokens; exact I |].
    intros [| t ts].
    - apply only_bind.
      + unfold createToken. apply only_bind; [| intros; constructor].
        apply only_call. reflexivity.
      + intros [|]; [apply only_getTokens; exact I | constructor].
    - constructor. }
  intros tokens. cbn [uploadPending bind]. unfold driftSync.
  cbn [configuredTokens bind]. constructor.
Qed.

(** X19.  The usage branch of the command-line entry is never taken: a
    missing or empty argument is replaced by the built-in session or user
    id, so [signIn] always runs.  It runs without account info, so such a
    run never deletes or updates a token and never calls the ledger; the
    only token it may create is the unlimited bootstrap one. *)
Theorem cli_always_signs_in_without_config :
  forall (argv2 argv3 : option string),
    Cli.usageError argv2 argv3 = false
    /\ Cli.main argv2 argv3 = Some (signIn None)
    /\ forall (W : Type) (respond : W -> forall r : request, response r * W) (w : W),
         Forall withoutConfigRequest (requests (trace_of respond (signIn None) w)).
Proof.
  intros argv2 argv3.
  assert (Hguard : Cli.usageError argv2 argv3 = false).
  { unfold Cli.usageError, Cli.session, Cli.apiUser.
    apply orb_false_iff. split; apply negb_false_iff.
    - destruct argv2 as [s |]; simpl; [| reflexivity].
      destruct (String.eqb s "") eqn:Hs; simpl; [reflexivity | rewrite Hs; reflexivity].
    - destruct argv3 as [s |]; simpl; [| reflexivity].
      destruct (String.eqb s "") eqn:Hs; simpl; [reflexivity | rewrite Hs; reflexivity]. }
  split; [exact Hguard |]. split.
  - unfold Cli.main. rewrite Hguard. reflexivity.
  - intros W respond w. apply only_trace.
    apply only_signIn; try exact I.
    + intros userInfo. apply withoutConfig_reconcile.
    + intros q. exact I.
Qed.

